(** * PythonMFCC: mel-frequency cepstral coefficients

    A shallow embedding of [python_mfcc.py] (class [PythonMFCC]) and the
    properties of its five methods.

    Numeric model.  Python [int] is [Z].  Python [float] is binary64 with
    its range and without its rounding: a float is a real number, plus or
    minus infinity, or not-a-number; an operation computes the exact real
    result and then applies the range of binary64, so that a result of
    magnitude [2^1024 - 2^970] or more is an infinity (or, where Python
    says so, an [OverflowError]) and a product or quotient of magnitude
    [2^-1075] or less is zero.  Inside the range results are the exact
    ones.  The exceptions Python raises on well-typed arguments are kept:
    [ZeroDivisionError], [OverflowError] (a float power that overflows, an
    int too large to convert to float, an int quotient too large),
    [ValueError] ([math.sqrt], [math.log] and [math.cos] outside their
    domain) and [IndexError]. *)

From Stdlib Require Import Reals Lra ZArith Lia List Bool.
Import ListNotations.

Local Open Scope Z_scope.
Local Open Scope R_scope.

(** ** Exceptions and the error monad *)

Inductive exn : Set :=
| ZeroDivisionError
| ValueError
| IndexError
| OverflowError.

Inductive result (A : Type) : Type :=
| Ok (a : A)
| Raise (e : exn).

Arguments Ok {A} a.
Arguments Raise {A} e.

Definition bind {A B : Type} (r : result A) (f : A -> result B) : result B :=
  match r with
  | Ok a => f a
  | Raise e => Raise e
  end.

Notation "x <- r ;; k" := (bind r (fun x => k))
  (at level 61, r at next level, right associativity).

(** ** Floats *)

Inductive float : Type :=
| Fin (x : R)
| PInf
| NInf
| NaN.

(** Round-to-nearest gives an infinity from [2^1024 - 2^970] on, and zero
    up to [2^-1075]. *)
Definition int_limit : Z := 2 ^ 1024 - 2 ^ 970.
Definition huge : R := IZR int_limit.
Definition tiny : R := / IZR (2 ^ 1075).

(** ** Python primitives *)

Module Py.

(** The range of binary64 applied to an exact result: of a sum or a
    difference, which can only overflow, and of a product or a quotient,
    which can also underflow. *)
Definition overflow (x : R) : float :=
  if Rle_dec huge x then PInf
  else if Rle_dec x (- huge) then NInf
  else Fin x.

Definition round (x : R) : float :=
  if Rle_dec (Rabs x) tiny then Fin 0 else overflow x.

(** [x * inf] and [x * -inf] for a real [x]. *)
Definition inf_times (x : R) (positive : bool) : float :=
  if Req_dec_T x 0 then NaN
  else if Rlt_dec 0 x then (if positive then PInf else NInf)
  else (if positive then NInf else PInf).

Definition neg (a : float) : float :=
  match a with
  | Fin x => Fin (- x)
  | PInf => NInf
  | NInf => PInf
  | NaN => NaN
  end.

Definition add (a b : float) : float :=
  match a, b with
  | Fin x, Fin y => overflow (x + y)
  | NaN, _ | _, NaN => NaN
  | PInf, NInf | NInf, PInf => NaN
  | PInf, _ | _, PInf => PInf
  | NInf, _ | _, NInf => NInf
  end.

Definition sub (a b : float) : float := add a (neg b).

Definition mul (a b : float) : float :=
  match a, b with
  | Fin x, Fin y => round (x * y)
  | NaN, _ | _, NaN => NaN
  | Fin x, PInf | PInf, Fin x => inf_times x true
  | Fin x, NInf | NInf, Fin x => inf_times x false
  | PInf, PInf | NInf, NInf => PInf
  | PInf, NInf | NInf, PInf => NInf
  end.

(** [a / b] on floats: a zero divisor raises, whatever [a] is. *)
Definition truediv (a b : float) : result float :=
  match b with
  | Fin y =>
      if Req_dec_T y 0 then Raise ZeroDivisionError
      else Ok (match a with
               | Fin x => round (x / y)
               | PInf => inf_times y true
               | NInf => inf_times y false
               | NaN => NaN
               end)
  | PInf | NInf => Ok (match a with Fin _ => Fin 0 | _ => NaN end)
  | NaN => Ok NaN
  end.

(** Comparisons; with an int operand they are exact, the int taken as
    the real number it is.  Every comparison with not-a-number fails. *)
Definition ltb (a b : float) : bool :=
  match a, b with
  | Fin x, Fin y => if Rlt_dec x y then true else false
  | NaN, _ | _, NaN => false
  | PInf, _ | _, NInf => false
  | _, PInf | NInf, _ => true
  end.

Definition geb (a b : float) : bool :=
  match a, b with
  | Fin x, Fin y => if Rge_dec x y then true else false
  | NaN, _ | _, NaN => false
  | PInf, _ | _, NInf => true
  | _, PInf | NInf, _ => false
  end.

Definition gtb (a b : float) : bool := ltb b a.

(** An int made a float, explicitly or as the operand of a float. *)
Definition of_int (n : Z) : result float :=
  if (int_limit <=? Z.abs n)%Z then Raise OverflowError else Ok (Fin (IZR n)).

(** [a / b] on ints. *)
Definition int_truediv (a b : Z) : result float :=
  if (b =? 0)%Z then Raise ZeroDivisionError
  else if (int_limit * Z.abs b <=? Z.abs a)%Z then Raise OverflowError
  else Ok (round (IZR a / IZR b)).

(** [pow(x, y)] for a float base [x > 1]: an overflow is an exception, an
    underflow is zero. *)
Definition pow (x : R) (y : float) : result float :=
  match y with
  | Fin e =>
      if Rle_dec huge (Rpower x e) then Raise OverflowError
      else Ok (round (Rpower x e))
  | PInf => Ok PInf
  | NInf => Ok (Fin 0)
  | NaN => Ok NaN
  end.

(** [math.sqrt], [math.log], [math.cos], [math.fabs]. *)
Definition sqrt (a : float) : result float :=
  match a with
  | Fin x => if Rlt_dec x 0 then Raise ValueError else Ok (Fin (R_sqrt.sqrt x))
  | PInf => Ok PInf
  | NInf => Raise ValueError
  | NaN => Ok NaN
  end.

Definition log (a : float) : result float :=
  match a with
  | Fin x => if Rle_dec x 0 then Raise ValueError else Ok (Fin (ln x))
  | PInf => Ok PInf
  | NInf => Raise ValueError
  | NaN => Ok NaN
  end.

Definition cos (a : float) : result float :=
  match a with
  | Fin x => Ok (Fin (Rtrigo_def.cos x))
  | PInf | NInf => Raise ValueError
  | NaN => Ok NaN
  end.

Definition fabs (a : float) : float :=
  match a with
  | Fin x => Fin (Rabs x)
  | PInf | NInf => PInf
  | NaN => NaN
  end.

(** [range(lo, hi)]: the [hi - lo] integers from [lo] on, none when
    [hi <= lo]. *)
Fixpoint iota (lo : Z) (n : nat) : list Z :=
  match n with
  | O => []
  | S n' => lo :: iota (lo + 1) n'
  end.

Definition range (lo hi : Z) : list Z := iota lo (Z.to_nat (hi - lo)).

(** [a[k]] for a one-dimensional array of finite values: a negative
    index counts from the end, an index out of bounds raises. *)
Definition getitem (a : list R) (k : Z) : result float :=
  let n := Z.of_nat (length a) in
  let i := if (k <? 0)%Z then (k + n)%Z else k in
  if ((0 <=? i) && (i <? n))%Z
  then match nth_error a (Z.to_nat i) with
       | Some x => Ok (Fin x)
       | None => Raise IndexError
       end
  else Raise IndexError.

(** [for i in xs: acc = body(i, acc)], stopping at the first exception. *)
Fixpoint for_each {A : Type} (xs : list Z) (body : Z -> A -> result A)
  (acc : A) : result A :=
  match xs with
  | [] => Ok acc
  | i :: rest => acc' <- body i acc ;; for_each rest body acc'
  end.

End Py.

(** ** The methods of [PythonMFCC] *)

Definition getCenterFrequency (filterBand : Z) : result float :=
  if (filterBand =? 0)%Z then Ok (Fin 0)
  else if ((filterBand >=? 1) && (filterBand <=? 14))%Z then
    f <- Py.of_int filterBand ;;
    Py.truediv (Py.mul (Fin 200.0) f) (Fin 3.0)
  else
    f <- Py.of_int filterBand ;;
    let exponent := Py.sub f (Fin 14.0) in
    centerFrequency <- Py.pow 1.0711703 exponent ;;
    Ok (Py.mul centerFrequency (Fin 1073.4)).

Definition getMagnitudeFactor (filterBand : Z) : result float :=
  let magnitudeFactor := Fin 0.0 in
  if ((filterBand >=? 1) && (filterBand <=? 14))%Z then
    Ok (Fin 0.015)
  else if ((filterBand >=? 15) && (filterBand <=? 48))%Z then
    upper <- getCenterFrequency (filterBand + 1) ;;
    lower <- getCenterFrequency (filterBand - 1) ;;
    Py.truediv (Fin 2.0) (Py.sub upper lower)
  else Ok magnitudeFactor.

Definition getFilterParameter (samplingRate binSize frequencyBand filterBand : Z)
  : result float :=
  let filterParameter := Fin 0.0 in
  boundary <- Py.int_truediv (frequencyBand * samplingRate) binSize ;;
  prevCenterFrequency <- getCenterFrequency (filterBand + 1) ;;
  thisCenterFrequency <- getCenterFrequency filterBand ;;
  nextCenterFrequency <- getCenterFrequency (filterBand + 1) ;;
  if Py.geb boundary (Fin 0) && Py.ltb boundary prevCenterFrequency then
    Ok (Fin 0.0)
  else if Py.geb boundary prevCenterFrequency
          && Py.ltb boundary thisCenterFrequency then
    filterParameter <- Py.truediv (Py.sub boundary prevCenterFrequency)
                         (Py.sub thisCenterFrequency prevCenterFrequency) ;;
    magnitudeFactor <- getMagnitudeFactor filterBand ;;
    Ok (Py.mul filterParameter magnitudeFactor)
  else if Py.geb boundary thisCenterFrequency
          && Py.ltb boundary nextCenterFrequency then
    filterParameter <- Py.truediv (Py.sub boundary nextCenterFrequency)
                         (Py.sub thisCenterFrequency nextCenterFrequency) ;;
    magnitudeFactor <- getMagnitudeFactor filterBand ;;
    Ok (Py.mul filterParameter magnitudeFactor)
  else if Py.geb boundary nextCenterFrequency
          && Py.ltb boundary (Fin (IZR samplingRate)) then
    Ok (Fin 0.0)
  else Ok filterParameter.

Definition getNormalizationFactor (numFilters m : Z) : result float :=
  if (m =? 0)%Z then
    n <- Py.of_int numFilters ;;
    q <- Py.truediv (Fin 1.0) n ;;
    Py.sqrt q
  else
    n <- Py.of_int numFilters ;;
    q <- Py.truediv (Fin 2.0) n ;;
    Py.sqrt q.

(** The body of the loop over the bins [k] (line 99). *)
Definition binStep (spectralData : list R) (samplingRate binSize l : Z)
  (k : Z) (innerSum : float) : result float :=
  x <- Py.getitem spectralData k ;;
  w <- getFilterParameter samplingRate binSize k l ;;
  Ok (Py.add innerSum (Py.fabs (Py.mul x w))).

(** [innerSum] when the loop over the bins ends (lines 97 to 99). *)
Definition innerSumLoop (spectralData : list R) (samplingRate binSize l : Z)
  : result float :=
  Py.for_each (Py.range 0 (binSize - 1))
    (binStep spectralData samplingRate binSize l) (Fin 0.0).

(** The body of the loop over the filter bands [l] (lines 97 to 103). *)
Definition bandStep (spectralData : list R) (samplingRate numFilters binSize m : Z)
  (l : Z) (outerSum : float) : result float :=
  innerSum <- innerSumLoop spectralData samplingRate binSize l ;;
  innerSum <- (if Py.gtb innerSum (Fin 0) then Py.log innerSum
               else Ok innerSum) ;;
  fm <- Py.of_int m ;;
  fn <- Py.of_int numFilters ;;
  q <- Py.truediv (Py.mul fm (Fin PI)) fn ;;
  fl <- Py.of_int l ;;
  c <- Py.cos (Py.mul q (Py.sub fl (Fin 0.5))) ;;
  Ok (Py.add outerSum (Py.mul innerSum c)).

Definition getCoefficient (spectralData : list R)
  (samplingRate numFilters binSize m : Z) : result float :=
  if (m >=? numFilters)%Z then Ok (Fin 0.0)
  else
    result <- getNormalizationFactor numFilters m ;;
    outerSum <- Py.for_each (Py.range 1 (numFilters + 1))
                  (bandStep spectralData samplingRate numFilters binSize m)
                  (Fin 0.0) ;;
    Ok (Py.mul result outerSum).

(** ** The spec's formulas *)

(** The ratio between neighbouring exponential bands. *)
Definition base : R := 1.0711703.

(** [sum_from f lo n] is the sum of [f i] for the [n] integers [i] from
    [lo] on; [Sigma lo hi f] is the sum for [i] from [lo] to [hi]
    inclusive, empty when [hi < lo]. *)
Fixpoint sum_from (f : Z -> R) (lo : Z) (n : nat) : R :=
  match n with
  | O => 0
  | S n' => f lo + sum_from f (lo + 1) n'
  end.

Definition Sigma (lo hi : Z) (f : Z -> R) : R :=
  sum_from f lo (Z.to_nat (hi - lo + 1)).

Module Spec.

(** The mel-scale centre of band [l]. *)
Definition centerFrequency (l : Z) : R :=
  if (l =? 0)%Z then 0
  else if ((1 <=? l) && (l <=? 14))%Z then (200.0 * IZR l) / 3.0
  else 1073.4 * Rpower 1.0711703 (IZR (l - 14)).

(** The weight [getFilterParameter] returned, when it returned a finite
    one. *)
Definition weight (samplingRate binSize k l : Z) : R :=
  match getFilterParameter samplingRate binSize k l with
  | Ok (Fin w) => w
  | _ => 0
  end.

(** Step 1 of the coefficient computer. *)
Definition normalization (numFilters m : Z) : R :=
  if (m =? 0)%Z then sqrt (1 / IZR numFilters) else sqrt (2 / IZR numFilters).

(** Step 2a: the energy of band [l], over the bins [0 .. binSize-2]. *)
Definition innerSum (spectralData : list R) (samplingRate binSize l : Z) : R :=
  Sigma 0 (binSize - 2)
    (fun k => Rabs (nth (Z.to_nat k) spectralData 0
                    * weight samplingRate binSize k l)).

(** Step 2b: the logarithm, clamped at zero energy. *)
Definition clampedLog (x : R) : R := if Rlt_dec 0 x then ln x else 0.

(** Steps 2c and 2d: the cosine basis and the sum over the bands. *)
Definition outerSum (spectralData : list R)
  (samplingRate numFilters binSize m : Z) : R :=
  Sigma 1 numFilters
    (fun l => clampedLog (innerSum spectralData samplingRate binSize l)
              * cos ((IZR m * PI / IZR numFilters) * (IZR l - 0.5))).

End Spec.

(** ** Dyadic bounds

    Lower and upper bounds [man * 2^exp] of the powers of the base, by
    repeated squaring on mantissas cut to [prec] bits: they locate the
    powers that leave the range of binary64. *)

Module Dyadic.

Record t : Set := mk { man : Z; exp : Z }.

Definition val (d : t) : R := IZR (man d) * powerRZ 2 (exp d).

Definition prec : Z := 64.

Definition shift (d : t) : Z := Z.max 0 (Z.log2 (man d) - prec).

Definition down (d : t) : t :=
  let s := shift d in mk (man d / 2 ^ s) (exp d + s).

Definition up (d : t) : t :=
  let s := shift d in mk (man d / 2 ^ s + 1) (exp d + s).

Definition mul (a b : t) : t := mk (man a * man b) (exp a + exp b).

Fixpoint pow_down (x : t) (n : positive) : t :=
  match n with
  | xH => x
  | xO p => let y := pow_down x p in down (mul y y)
  | xI p => let y := pow_down x p in down (mul x (down (mul y y)))
  end.

Fixpoint pow_up (x : t) (n : positive) : t :=
  match n with
  | xH => x
  | xO p => let y := pow_up x p in up (mul y y)
  | xI p => let y := pow_up x p in up (mul x (up (mul y y)))
  end.

Definition leb (a b : t) : bool :=
  let e := Z.min (exp a) (exp b) in
  (man a * 2 ^ (exp a - e) <=? man b * 2 ^ (exp b - e))%Z.

Definition ltb (a b : t) : bool :=
  let e := Z.min (exp a) (exp b) in
  (man a * 2 ^ (exp a - e) <? man b * 2 ^ (exp b - e))%Z.

End Dyadic.

Definition base_down : Dyadic.t :=
  Dyadic.mk (10711703 * 2 ^ 60 / 10000000) (-60).
Definition base_up : Dyadic.t :=
  Dyadic.mk (10711703 * 2 ^ 60 / 10000000 + 1) (-60).
Definition huge_d : Dyadic.t := Dyadic.mk (2 ^ 54 - 1) 970.

(** [huge / 1073.4] between two dyadic numbers ([1073.4 = 5367 / 5]). *)
Definition quotient_down : Dyadic.t :=
  Dyadic.mk ((2 ^ 54 - 1) * 2 ^ 20 * 5 / 5367) 950.
Definition quotient_up : Dyadic.t :=
  Dyadic.mk ((2 ^ 54 - 1) * 2 ^ 20 * 5 / 5367 + 1) 950.

(** ** Dyadic numbers *)

Lemma powerRZ_2_nonneg (s : Z) : (0 <= s)%Z -> powerRZ 2 s = IZR (2 ^ s).
Proof.
  intros H. rewrite <- (Z2Nat.id s H) at 1. rewrite <- pow_powerRZ.
  rewrite pow_IZR. rewrite Z2Nat.id by assumption. reflexivity.
Qed.

Lemma powerRZ_2_pos (e : Z) : 0 < powerRZ 2 e.
Proof. apply powerRZ_lt; lra. Qed.

Lemma val_mul (a b : Dyadic.t) :
  Dyadic.val (Dyadic.mul a b) = Dyadic.val a * Dyadic.val b.
Proof.
  unfold Dyadic.val, Dyadic.mul; cbn [Dyadic.man Dyadic.exp].
  rewrite mult_IZR, powerRZ_add by lra. ring.
Qed.

Lemma val_split (m e s : Z) :
  (0 <= s)%Z ->
  Dyadic.val (Dyadic.mk m (e + s)) = IZR (m * 2 ^ s) * powerRZ 2 e.
Proof.
  intros H. unfold Dyadic.val; cbn [Dyadic.man Dyadic.exp].
  rewrite powerRZ_add by lra. rewrite (powerRZ_2_nonneg s H), mult_IZR. ring.
Qed.

Lemma shift_nonneg (d : Dyadic.t) : (0 <= Dyadic.shift d)%Z.
Proof. unfold Dyadic.shift; lia. Qed.

Lemma val_down (d : Dyadic.t) :
  (0 <= Dyadic.man d)%Z ->
  (0 <= Dyadic.man (Dyadic.down d))%Z
  /\ 0 <= Dyadic.val (Dyadic.down d) <= Dyadic.val d.
Proof.
  intros Hm. pose proof (shift_nonneg d) as Hs.
  assert (0 < 2 ^ Dyadic.shift d)%Z as Hp by (apply Z.pow_pos_nonneg; lia).
  unfold Dyadic.down. cbv zeta. cbn [Dyadic.man].
  assert (0 <= Dyadic.man d / 2 ^ Dyadic.shift d)%Z as Hq
    by (apply Z.div_pos; lia).
  split; [exact Hq |].
  rewrite val_split by assumption.
  pose proof (powerRZ_2_pos (Dyadic.exp d)) as He.
  pose proof (Z.mul_div_le (Dyadic.man d) _ Hp) as Hle.
  assert (0 <= IZR (Dyadic.man d / 2 ^ Dyadic.shift d * 2 ^ Dyadic.shift d))
    by (apply IZR_le; nia).
  assert (IZR (Dyadic.man d / 2 ^ Dyadic.shift d * 2 ^ Dyadic.shift d)
          <= IZR (Dyadic.man d)) by (apply IZR_le; lia).
  unfold Dyadic.val. split; nra.
Qed.

Lemma val_up (d : Dyadic.t) :
  (0 <= Dyadic.man d)%Z ->
  (0 <= Dyadic.man (Dyadic.up d))%Z
  /\ Dyadic.val d <= Dyadic.val (Dyadic.up d).
Proof.
  intros Hm. pose proof (shift_nonneg d) as Hs.
  assert (0 < 2 ^ Dyadic.shift d)%Z as Hp by (apply Z.pow_pos_nonneg; lia).
  unfold Dyadic.up. cbv zeta. cbn [Dyadic.man].
  assert (0 <= Dyadic.man d / 2 ^ Dyadic.shift d)%Z as Hq
    by (apply Z.div_pos; lia).
  split; [lia |].
  rewrite val_split by assumption.
  pose proof (powerRZ_2_pos (Dyadic.exp d)) as He.
  pose proof (Z.mod_pos_bound (Dyadic.man d) _ Hp) as Hmod.
  pose proof (Z.div_mod (Dyadic.man d) (2 ^ Dyadic.shift d) ltac:(lia)) as Hdm.
  assert (IZR (Dyadic.man d)
          <= IZR ((Dyadic.man d / 2 ^ Dyadic.shift d + 1) * 2 ^ Dyadic.shift d))
    by (apply IZR_le; nia).
  unfold Dyadic.val. nra.
Qed.

Lemma pow_double (b : R) (n : nat) : b ^ (2 * n) = b ^ n * b ^ n.
Proof. replace (2 * n)%nat with (n + n)%nat by lia. apply pow_add. Qed.

Lemma pow_down_spec (x : Dyadic.t) (b : R) (n : positive) :
  (0 <= Dyadic.man x)%Z -> 0 <= Dyadic.val x <= b ->
  (0 <= Dyadic.man (Dyadic.pow_down x n))%Z
  /\ 0 <= Dyadic.val (Dyadic.pow_down x n) <= b ^ Pos.to_nat n.
Proof.
  intros Hm Hx. induction n as [p IH | p IH |]; cbn [Dyadic.pow_down].
  - destruct IH as [IHm IHv]. cbv zeta.
    set (y := Dyadic.pow_down x p) in *.
    assert (0 <= Dyadic.man (Dyadic.mul y y))%Z as H1 by (cbn; nia).
    destruct (val_down _ H1) as [H2 H3]. rewrite val_mul in H3.
    assert (0 <= Dyadic.man (Dyadic.mul x (Dyadic.down (Dyadic.mul y y))))%Z
      as H4 by (cbn [Dyadic.mul Dyadic.man]; nia).
    destruct (val_down _ H4) as [H5 H6]. rewrite val_mul in H6.
    split; [exact H5 |].
    rewrite Pos2Nat.inj_xI. cbn [pow]. rewrite pow_double.
    assert (0 <= b ^ Pos.to_nat p) by (apply pow_le; lra).
    split; [lra |].
    apply Rle_trans with (1 := proj2 H6).
    apply Rmult_le_compat; try lra.
    apply Rle_trans with (1 := proj2 H3).
    apply Rmult_le_compat; lra.
  - destruct IH as [IHm IHv]. cbv zeta.
    set (y := Dyadic.pow_down x p) in *.
    assert (0 <= Dyadic.man (Dyadic.mul y y))%Z as H1 by (cbn; nia).
    destruct (val_down _ H1) as [H2 H3]. rewrite val_mul in H3.
    split; [exact H2 |].
    rewrite Pos2Nat.inj_xO. rewrite pow_double.
    split; [lra |].
    apply Rle_trans with (1 := proj2 H3).
    apply Rmult_le_compat; lra.
  - split; [assumption |]. rewrite Pos2Nat.inj_1. cbn [pow]. lra.
Qed.

Lemma pow_up_spec (x : Dyadic.t) (b : R) (n : positive) :
  (0 <= Dyadic.man x)%Z -> 0 <= b <= Dyadic.val x ->
  (0 <= Dyadic.man (Dyadic.pow_up x n))%Z
  /\ b ^ Pos.to_nat n <= Dyadic.val (Dyadic.pow_up x n).
Proof.
  intros Hm Hx. induction n as [p IH | p IH |]; cbn [Dyadic.pow_up].
  - destruct IH as [IHm IHv]. cbv zeta.
    set (y := Dyadic.pow_up x p) in *.
    assert (0 <= b ^ Pos.to_nat p) by (apply pow_le; lra).
    assert (0 <= Dyadic.man (Dyadic.mul y y))%Z as H1 by (cbn; nia).
    destruct (val_up _ H1) as [H2 H3]. rewrite val_mul in H3.
    assert (0 <= Dyadic.man (Dyadic.mul x (Dyadic.up (Dyadic.mul y y))))%Z
      as H4 by (cbn [Dyadic.mul Dyadic.man]; nia).
    destruct (val_up _ H4) as [H5 H6]. rewrite val_mul in H6.
    split; [exact H5 |].
    rewrite Pos2Nat.inj_xI. cbn [pow]. rewrite pow_double.
    apply Rle_trans with (2 := H6).
    apply Rmult_le_compat; try lra.
    + apply Rmult_le_pos; lra.
    + apply Rle_trans with (2 := H3). apply Rmult_le_compat; lra.
  - destruct IH as [IHm IHv]. cbv zeta.
    set (y := Dyadic.pow_up x p) in *.
    assert (0 <= b ^ Pos.to_nat p) by (apply pow_le; lra).
    assert (0 <= Dyadic.man (Dyadic.mul y y))%Z as H1 by (cbn; nia).
    destruct (val_up _ H1) as [H2 H3]. rewrite val_mul in H3.
    split; [exact H2 |].
    rewrite Pos2Nat.inj_xO. rewrite pow_double.
    apply Rle_trans with (2 := H3). apply Rmult_le_compat; lra.
  - split; [assumption |]. rewrite Pos2Nat.inj_1. cbn [pow]. lra.
Qed.

Lemma aligned (m e e0 : Z) :
  (e0 <= e)%Z -> IZR m * powerRZ 2 e = IZR (m * 2 ^ (e - e0)) * powerRZ 2 e0.
Proof.
  intros H. replace e with (e0 + (e - e0))%Z at 1 by lia.
  rewrite powerRZ_add by lra. rewrite (powerRZ_2_nonneg (e - e0)) by lia.
  rewrite mult_IZR. ring.
Qed.

Lemma dyadic_leb_spec (a b : Dyadic.t) :
  Dyadic.leb a b = true -> Dyadic.val a <= Dyadic.val b.
Proof.
  unfold Dyadic.leb, Dyadic.val. cbv zeta. intros H. apply Z.leb_le in H.
  set (e := Z.min (Dyadic.exp a) (Dyadic.exp b)) in *.
  rewrite (aligned _ (Dyadic.exp a) e), (aligned _ (Dyadic.exp b) e) by lia.
  apply Rmult_le_compat_r; [apply Rlt_le, powerRZ_2_pos | apply IZR_le, H].
Qed.

Lemma dyadic_ltb_spec (a b : Dyadic.t) :
  Dyadic.ltb a b = true -> Dyadic.val a < Dyadic.val b.
Proof.
  unfold Dyadic.ltb, Dyadic.val. cbv zeta. intros H. apply Z.ltb_lt in H.
  set (e := Z.min (Dyadic.exp a) (Dyadic.exp b)) in *.
  rewrite (aligned _ (Dyadic.exp a) e), (aligned _ (Dyadic.exp b) e) by lia.
  apply Rmult_lt_compat_r; [apply powerRZ_2_pos | apply IZR_lt, H].
Qed.

Lemma base_enclosed :
  0 <= Dyadic.val base_down <= base /\ base <= Dyadic.val base_up.
Proof.
  unfold Dyadic.val, base_down, base_up, base. cbn [Dyadic.man Dyadic.exp].
  replace (powerRZ 2 (-60)) with (/ IZR (2 ^ 60)).
  2:{ change (-60)%Z with (- (60))%Z. rewrite powerRZ_neg'.
      rewrite powerRZ_2_nonneg by lia. reflexivity. }
  set (q := (10711703 * 2 ^ 60 / 10000000)%Z).
  vm_compute in q. subst q.
  set (k := (2^60)%Z) in *. vm_compute in k. subst k.
  rewrite plus_IZR. split; [split|]; lra.
Qed.

Lemma huge_val : Dyadic.val huge_d = huge.
Proof.
  unfold Dyadic.val, huge_d, huge, int_limit. cbn [Dyadic.man Dyadic.exp].
  rewrite powerRZ_2_nonneg by lia. rewrite <- mult_IZR. f_equal.
Qed.

Lemma base_gt_1 : 1 < base.
Proof. unfold base; lra. Qed.

Lemma Rpower_base_pos (p : positive) :
  Rpower base (IZR (Z.pos p)) = base ^ Pos.to_nat p.
Proof.
  rewrite <- Rpower_pow by (unfold base; lra).
  rewrite INR_IZR_INZ, positive_nat_Z. reflexivity.
Qed.

(** Bounds of a power of the base, by computation on dyadic numbers. *)
Lemma power_above (d : Dyadic.t) (p : positive) :
  Dyadic.leb d (Dyadic.pow_down base_down p) = true ->
  Dyadic.val d <= Rpower base (IZR (Z.pos p)).
Proof.
  intros H. rewrite Rpower_base_pos.
  destruct base_enclosed as [Hlo Hhi].
  assert (0 <= Dyadic.man base_down)%Z as Hm by (vm_compute; discriminate).
  destruct (pow_down_spec base_down base p Hm Hlo) as [_ [_ Hp]].
  apply Rle_trans with (2 := Hp). apply dyadic_leb_spec, H.
Qed.

Lemma power_below (d : Dyadic.t) (p : positive) :
  Dyadic.ltb (Dyadic.pow_up base_up p) d = true ->
  Rpower base (IZR (Z.pos p)) < Dyadic.val d.
Proof.
  intros H. rewrite Rpower_base_pos.
  destruct base_enclosed as [Hlo Hhi].
  assert (0 <= Dyadic.man base_up)%Z as Hm by (vm_compute; discriminate).
  assert (0 <= base <= Dyadic.val base_up) as Hb
    by (split; [unfold base; lra | exact Hhi]).
  destruct (pow_up_spec base_up base p Hm Hb) as [_ Hp].
  apply Rle_lt_trans with (1 := Hp). apply dyadic_ltb_spec, H.
Qed.

(** Where the powers of the base leave the range: the power overflows
    from the exponent [10324] on. *)
Lemma pow_overflows : huge <= Rpower base 10324.
Proof. rewrite <- huge_val. apply power_above. vm_compute. reflexivity. Qed.

Lemma pow_in_range : Rpower base 10323 < huge.
Proof. rewrite <- huge_val. apply power_below. vm_compute. reflexivity. Qed.

Lemma quotient_enclosed :
  1073.4 * Dyadic.val quotient_down <= huge
  /\ huge <= 1073.4 * Dyadic.val quotient_up.
Proof.
  rewrite <- huge_val.
  unfold Dyadic.val, huge_d, quotient_down, quotient_up.
  cbn [Dyadic.man Dyadic.exp].
  rewrite (aligned (2 ^ 54 - 1) 970 950) by lia.
  pose proof (powerRZ_2_pos 950) as Hp.
  rewrite <- !Rmult_assoc.
  set (a := ((2 ^ 54 - 1) * 2 ^ 20 * 5 / 5367)%Z). vm_compute in a. subst a.
  set (b := ((2 ^ 54 - 1) * 2 ^ (970 - 950))%Z). vm_compute in b. subst b.
  rewrite plus_IZR.
  split; apply Rmult_le_compat_r; lra.
Qed.

(** Its product with [1073.4] overflows from the exponent [10223] on. *)
Lemma scaled_in_range : 1073.4 * Rpower base 10222 < huge.
Proof.
  assert (Rpower base 10222 < Dyadic.val quotient_down) as H
    by (apply power_below; vm_compute; reflexivity).
  destruct quotient_enclosed as [Hq _]. lra.
Qed.

Lemma scaled_overflows : huge <= 1073.4 * Rpower base 10223.
Proof.
  assert (Dyadic.val quotient_up <= Rpower base 10223) as H
    by (apply power_above; vm_compute; reflexivity).
  destruct quotient_enclosed as [_ Hq]. lra.
Qed.

Lemma two_1075 : Dyadic.val (Dyadic.mk 1 1075) = IZR (2 ^ 1075).
Proof.
  unfold Dyadic.val. cbn [Dyadic.man Dyadic.exp].
  rewrite powerRZ_2_nonneg by lia. lra.
Qed.

(** The power underflows to zero from the exponent [-10839] down. *)
Lemma pow_not_flushed : tiny < Rpower base (-10838).
Proof.
  unfold tiny. change (-10838) with (- (10838)). rewrite Rpower_Ropp.
  apply Rinv_lt_contravar.
  - apply Rmult_lt_0_compat; [apply exp_pos | apply IZR_lt; reflexivity].
  - rewrite <- two_1075. apply power_below. vm_compute. reflexivity.
Qed.

Lemma pow_flushed : Rpower base (-10839) <= tiny.
Proof.
  unfold tiny. change (-10839) with (- (10839)). rewrite Rpower_Ropp.
  apply Rinv_le_contravar; [apply IZR_lt; reflexivity |].
  rewrite <- two_1075. apply power_above. vm_compute. reflexivity.
Qed.

(** ** The range of binary64 *)

Lemma huge_large : IZR (2 ^ 1023) < huge.
Proof. apply IZR_lt. reflexivity. Qed.

Lemma huge_below : huge < IZR (2 ^ 1024).
Proof. apply IZR_lt. reflexivity. Qed.

Lemma million_below_huge : 1000000 < huge.
Proof. apply (IZR_lt 1000000). reflexivity. Qed.

Lemma huge_pos : 0 < huge.
Proof. pose proof million_below_huge. lra. Qed.

Lemma tiny_pos : 0 < tiny.
Proof. apply Rinv_0_lt_compat. apply IZR_lt. reflexivity. Qed.

(** The inverse of a float in range is not flushed to zero. *)
Lemma inv_above_tiny (x : R) : 0 < x -> x < huge -> tiny < / x.
Proof.
  intros H0 H. unfold tiny. apply Rinv_lt_contravar.
  - apply Rmult_lt_0_compat; [assumption | apply IZR_lt; reflexivity].
  - apply Rlt_trans with (1 := H). apply IZR_lt. reflexivity.
Qed.

Lemma tiny_below_millionth : tiny < / 1000000.
Proof. apply inv_above_tiny; [lra | apply million_below_huge]. Qed.

Lemma int_in_range (n : Z) :
  (Z.abs n < int_limit)%Z -> Rabs (IZR n) < huge.
Proof. intros H. rewrite <- abs_IZR. apply IZR_lt, H. Qed.

Lemma overflow_Fin (x : R) : Rabs x < huge -> Py.overflow x = Fin x.
Proof.
  intros H. unfold Py.overflow.
  destruct (Rle_dec huge x) as [H1 | _].
  { pose proof (Rle_abs x). lra. }
  destruct (Rle_dec x (- huge)) as [H2 | _]; [| reflexivity].
  pose proof (Rabs_pos x). rewrite Rabs_left1 in H by lra. lra.
Qed.

Lemma round_Fin (x : R) : tiny < Rabs x -> Rabs x < huge -> Py.round x = Fin x.
Proof.
  intros Ht Hh. unfold Py.round.
  destruct (Rle_dec (Rabs x) tiny); [lra | apply overflow_Fin, Hh].
Qed.

Lemma round_0 : Py.round 0 = Fin 0.
Proof.
  unfold Py.round. rewrite Rabs_R0. pose proof tiny_pos.
  destruct (Rle_dec 0 tiny); [reflexivity | lra].
Qed.

(** A result inside the range is a finite float, zero or the exact one. *)
Lemma round_finite (x : R) :
  Rabs x < huge -> exists y, Py.round x = Fin y /\ Rabs y <= Rabs x.
Proof.
  intros H. unfold Py.round. destruct (Rle_dec (Rabs x) tiny).
  - exists 0. split; [reflexivity |]. rewrite Rabs_R0. apply Rabs_pos.
  - exists x. split; [apply overflow_Fin, H | lra].
Qed.

Lemma round_opp (x : R) : Py.round (- x) = Py.neg (Py.round x).
Proof.
  unfold Py.round, Py.overflow. rewrite Rabs_Ropp. pose proof huge_pos.
  destruct (Rle_dec (Rabs x) tiny); cbn [Py.neg]; [f_equal; lra |].
  destruct (Rle_dec huge (- x)), (Rle_dec (- x) (- huge)),
    (Rle_dec huge x), (Rle_dec x (- huge)); cbn [Py.neg];
    try reflexivity; lra.
Qed.

(** ** Comparisons and primitives *)

Lemma ltb_Fin (x y : R) : Py.ltb (Fin x) (Fin y) = true <-> x < y.
Proof.
  cbn [Py.ltb]. destruct (Rlt_dec x y); split; intros; congruence || lra.
Qed.

Lemma geb_Fin (x y : R) : Py.geb (Fin x) (Fin y) = true <-> y <= x.
Proof.
  cbn [Py.geb]. destruct (Rge_dec x y); split; intros; congruence || lra.
Qed.

Lemma between_true (lo x hi : R) :
  lo <= x -> x < hi -> Py.geb (Fin x) (Fin lo) && Py.ltb (Fin x) (Fin hi) = true.
Proof.
  intros Hlo Hhi. apply andb_true_iff; split;
    [apply geb_Fin | apply ltb_Fin]; assumption.
Qed.

Lemma between_false (lo x hi : R) :
  x < lo \/ hi <= x ->
  Py.geb (Fin x) (Fin lo) && Py.ltb (Fin x) (Fin hi) = false.
Proof.
  intros H. apply andb_false_iff.
  destruct H as [H | H]; [left | right]; apply not_true_is_false; intros E.
  - apply geb_Fin in E; lra.
  - apply ltb_Fin in E; lra.
Qed.

Lemma truediv_Fin (x y : R) :
  y <> 0 -> Py.truediv (Fin x) (Fin y) = Ok (Py.round (x / y)).
Proof.
  intros H. cbn [Py.truediv]. destruct (Req_dec_T y 0); [contradiction | reflexivity].
Qed.

Lemma truediv_zero (a : float) : Py.truediv a (Fin 0) = Raise ZeroDivisionError.
Proof. cbn [Py.truediv]. destruct (Req_dec_T 0 0); [reflexivity | contradiction]. Qed.

Lemma of_int_ok (n : Z) :
  (Z.abs n < int_limit)%Z -> Py.of_int n = Ok (Fin (IZR n)).
Proof.
  intros H. unfold Py.of_int.
  replace (int_limit <=? Z.abs n)%Z with false; [reflexivity |].
  symmetry; apply Z.leb_gt; assumption.
Qed.

Lemma of_int_overflow (n : Z) :
  (int_limit <= Z.abs n)%Z -> Py.of_int n = Raise OverflowError.
Proof.
  intros H. unfold Py.of_int.
  replace (int_limit <=? Z.abs n)%Z with true; [reflexivity |].
  symmetry; apply Z.leb_le; assumption.
Qed.

Lemma int_limit_large : (2 ^ 1023 < int_limit)%Z.
Proof. reflexivity. Qed.

Lemma sub_Fin (x y : R) :
  Rabs (x - y) < huge -> Py.sub (Fin x) (Fin y) = Fin (x - y).
Proof. intros H. cbn [Py.sub Py.neg Py.add]. apply overflow_Fin, H. Qed.

Lemma mul_zero_r (x : R) : Py.mul (Fin x) (Fin 0) = Fin 0.
Proof. cbn [Py.mul]. rewrite Rmult_0_r. apply round_0. Qed.

Lemma mul_zero_l (x : R) : Py.mul (Fin 0) (Fin x) = Fin 0.
Proof. cbn [Py.mul]. rewrite Rmult_0_l. apply round_0. Qed.

Lemma add_zero_zero : Py.add (Fin 0) (Fin 0) = Fin 0.
Proof.
  cbn [Py.add]. rewrite Rplus_0_r. apply overflow_Fin.
  rewrite Rabs_R0. apply huge_pos.
Qed.

Lemma round_Fin_pos (x : R) : tiny < x -> x < huge -> Py.round x = Fin x.
Proof.
  intros Ht Hh. pose proof tiny_pos.
  apply round_Fin; rewrite Rabs_pos_eq by lra; assumption.
Qed.

Lemma overflow_Fin_between (x : R) : - huge < x < huge -> Py.overflow x = Fin x.
Proof. intros H. apply overflow_Fin. apply Rabs_def1; lra. Qed.

(** ** The centre frequencies as real numbers *)

Lemma spec_origin : Spec.centerFrequency 0 = 0.
Proof. reflexivity. Qed.

Lemma spec_linear (l : Z) :
  (1 <= l <= 14)%Z -> Spec.centerFrequency l = (200.0 * IZR l) / 3.0.
Proof.
  intros H. unfold Spec.centerFrequency.
  replace (l =? 0)%Z with false by (symmetry; apply Z.eqb_neq; lia).
  replace ((1 <=? l) && (l <=? 14))%Z with true; [reflexivity |].
  symmetry; apply andb_true_iff; split; apply Z.leb_le; lia.
Qed.

Lemma spec_exponential (l : Z) :
  (l < 0 \/ 14 < l)%Z ->
  Spec.centerFrequency l = 1073.4 * Rpower base (IZR (l - 14)).
Proof.
  intros H. unfold Spec.centerFrequency.
  replace (l =? 0)%Z with false by (symmetry; apply Z.eqb_neq; lia).
  replace ((1 <=? l) && (l <=? 14))%Z with false; [reflexivity |].
  symmetry; apply andb_false_iff.
  destruct H; [left | right]; apply Z.leb_gt; lia.
Qed.

Lemma power_positive (y : R) : 0 < Rpower base y.
Proof. unfold Rpower; apply exp_pos. Qed.

Lemma power_monotone (y z : R) : y <= z -> Rpower base y <= Rpower base z.
Proof. apply Rle_Rpower. pose proof base_gt_1. lra. Qed.

Lemma spec_pos (l : Z) : l <> 0%Z -> 0 < Spec.centerFrequency l.
Proof.
  intros H.
  destruct (Z_lt_le_dec l 0) as [Hneg | Hpos];
    [| destruct (Z_le_gt_dec l 14) as [Hlin | Hexp]].
  - rewrite spec_exponential by lia.
    pose proof (power_positive (IZR (l - 14))). nra.
  - rewrite spec_linear by lia.
    assert (1 <= IZR l) by (apply IZR_le; lia). lra.
  - rewrite spec_exponential by lia.
    pose proof (power_positive (IZR (l - 14))). nra.
Qed.

Lemma spec_nonneg (l : Z) : 0 <= Spec.centerFrequency l.
Proof.
  destruct (Z.eq_dec l 0) as [-> | H].
  - rewrite spec_origin; lra.
  - apply Rlt_le, spec_pos, H.
Qed.

(** From the last linear band to any exponential one. *)
Lemma linear_below_exponential (a b : Z) :
  (1 <= a <= 14)%Z -> (14 < b)%Z ->
  Spec.centerFrequency a < Spec.centerFrequency b.
Proof.
  intros Ha Hb.
  rewrite spec_linear by lia. rewrite spec_exponential by lia.
  assert (IZR a <= 14) by (apply IZR_le; lia).
  assert (base <= Rpower base (IZR (b - 14))).
  { rewrite <- (Rpower_1 base) at 1 by (unfold base; lra).
    apply power_monotone. apply (IZR_le 1); lia. }
  unfold base in *; lra.
Qed.

(** Strictly increasing from the origin on. *)
Lemma spec_increasing (a b : Z) :
  (0 <= a < b)%Z -> Spec.centerFrequency a < Spec.centerFrequency b.
Proof.
  intros H.
  destruct (Z.eq_dec a 0) as [-> | Ha0].
  { rewrite spec_origin; apply spec_pos; lia. }
  destruct (Z_le_gt_dec a 14) as [Ha | Ha].
  - destruct (Z_le_gt_dec b 14) as [Hb | Hb].
    + rewrite !spec_linear by lia.
      assert (IZR a < IZR b) by (apply IZR_lt; lia). lra.
    + apply linear_below_exponential; lia.
  - rewrite !spec_exponential by lia.
    assert (Rpower base (IZR (a - 14)) < Rpower base (IZR (b - 14))).
    { apply Rpower_lt; [apply base_gt_1 | apply IZR_lt; lia]. }
    lra.
Qed.

(** And strictly increasing below the origin. *)
Lemma spec_increasing_negative (a b : Z) :
  (a < b < 0)%Z -> Spec.centerFrequency a < Spec.centerFrequency b.
Proof.
  intros H. rewrite !spec_exponential by lia.
  assert (Rpower base (IZR (a - 14)) < Rpower base (IZR (b - 14))).
  { apply Rpower_lt; [apply base_gt_1 | apply IZR_lt; lia]. }
  lra.
Qed.

(** The bands whose centre is a finite, non-zero float. *)
Lemma spec_below_huge (l : Z) :
  (l <= 10236)%Z -> Spec.centerFrequency l < huge.
Proof.
  intros H. pose proof million_below_huge as Hm.
  destruct (Z.eq_dec l 0) as [-> | Hne]; [rewrite spec_origin; lra |].
  destruct (Z_lt_le_dec l 0) as [Hneg | Hpos];
    [| destruct (Z_le_gt_dec l 14) as [Hlin | Hexp]].
  - rewrite spec_exponential by lia.
    assert (Rpower base (IZR (l - 14)) <= Rpower base 0)
      by (apply power_monotone, (IZR_le _ 0); lia).
    rewrite Rpower_O in * by (unfold base; lra). lra.
  - rewrite spec_linear by lia.
    assert (IZR l <= 14) by (apply IZR_le; lia). lra.
  - rewrite spec_exponential by lia.
    assert (Rpower base (IZR (l - 14)) <= Rpower base 10222)
      by (apply power_monotone, IZR_le; lia).
    pose proof scaled_in_range. lra.
Qed.

Lemma spec_above_tiny (l : Z) :
  (-10824 <= l)%Z -> l <> 0%Z -> tiny < Spec.centerFrequency l.
Proof.
  intros H Hne. pose proof tiny_below_millionth as Ht.
  destruct (Z_lt_le_dec l 0) as [Hneg | Hpos];
    [| destruct (Z_le_gt_dec l 14) as [Hlin | Hexp]].
  - rewrite spec_exponential by lia.
    assert (Rpower base (-10838) <= Rpower base (IZR (l - 14)))
      by (apply power_monotone, IZR_le; lia).
    pose proof pow_not_flushed. pose proof tiny_pos. nra.
  - rewrite spec_linear by lia.
    assert (1 <= IZR l) by (apply IZR_le; lia). lra.
  - rewrite spec_exponential by lia.
    assert (Rpower base 1 <= Rpower base (IZR (l - 14)))
      by (apply power_monotone, (IZR_le 1); lia).
    rewrite Rpower_1 in * by (unfold base; lra). unfold base in *. lra.
Qed.

(** ** [getCenterFrequency] over the integers *)

Lemma linear_test (l : Z) :
  ((l >=? 1) && (l <=? 14))%Z = true <-> (1 <= l <= 14)%Z.
Proof. rewrite andb_true_iff, Z.geb_le, Z.leb_le. tauto. Qed.

Lemma linear_test_false (l : Z) :
  (l < 1 \/ 14 < l)%Z -> ((l >=? 1) && (l <=? 14))%Z = false.
Proof.
  intros H. apply not_true_is_false. rewrite linear_test. lia.
Qed.

(** The exponential branch, once the index is a float. *)
Lemma exponential_branch (l : Z) :
  (l < 0 \/ 14 < l)%Z -> (Z.abs l < int_limit)%Z ->
  getCenterFrequency l
  = (centerFrequency <- Py.pow 1.0711703 (Py.overflow (IZR l - 14)) ;;
     Ok (Py.mul centerFrequency (Fin 1073.4))).
Proof.
  intros H Hl. unfold getCenterFrequency.
  replace (l =? 0)%Z with false by (symmetry; apply Z.eqb_neq; lia).
  rewrite linear_test_false by lia. rewrite of_int_ok by assumption.
  cbn [bind Py.sub Py.neg Py.add].
  match goal with
  | |- context [Py.overflow ?t] => replace t with (IZR l - 14) by lra
  end.
  reflexivity.
Qed.

Lemma exponent_in_range (l : Z) :
  (Z.abs (l - 14) < int_limit)%Z ->
  Py.overflow (IZR l - 14) = Fin (IZR (l - 14)).
Proof.
  intros H. rewrite <- (minus_IZR l 14).
  apply overflow_Fin, int_in_range, H.
Qed.

Lemma pow_Fin (e : R) :
  tiny < Rpower base e -> Rpower base e < huge ->
  Py.pow 1.0711703 (Fin e) = Ok (Fin (Rpower base e)).
Proof.
  intros Ht Hh. cbn [Py.pow]. fold base.
  destruct (Rle_dec huge (Rpower base e)); [lra |].
  rewrite round_Fin_pos by assumption. reflexivity.
Qed.

Lemma int_limit_value : (20000 < int_limit)%Z.
Proof. reflexivity. Qed.

(** Bands [-10824 .. 10236]: the centre is the finite float of the
    formula. *)
Lemma centerFrequency_finite (l : Z) :
  (-10824 <= l <= 10236)%Z ->
  getCenterFrequency l = Ok (Fin (Spec.centerFrequency l)).
Proof.
  intros H. pose proof int_limit_value as Hlim.
  destruct (Z.eq_dec l 0) as [-> | Hne]; [reflexivity |].
  destruct (Z_lt_le_dec l 1) as [Hneg | Hpos];
    [| destruct (Z_le_gt_dec l 14) as [Hlin | Hexp]].
  - rewrite exponential_branch, exponent_in_range by lia.
    assert (Rpower base (-10838) <= Rpower base (IZR (l - 14)))
      by (apply power_monotone, IZR_le; lia).
    assert (Rpower base (IZR (l - 14)) <= Rpower base 0)
      by (apply power_monotone, (IZR_le _ 0); lia).
    rewrite Rpower_O in * by (unfold base; lra).
    pose proof pow_not_flushed. pose proof million_below_huge.
    pose proof tiny_pos.
    rewrite pow_Fin by lra. cbn [bind Py.mul].
    rewrite round_Fin_pos by nra.
    rewrite spec_exponential by lia. do 2 f_equal. lra.
  - unfold getCenterFrequency.
    replace (l =? 0)%Z with false by (symmetry; apply Z.eqb_neq; lia).
    replace ((l >=? 1) && (l <=? 14))%Z with true
      by (symmetry; apply linear_test; lia).
    rewrite of_int_ok by lia. cbn [bind Py.mul].
    assert (1 <= IZR l <= 14) by (split; apply IZR_le; lia).
    pose proof tiny_below_millionth. pose proof million_below_huge.
    rewrite round_Fin_pos by lra.
    rewrite truediv_Fin by lra.
    rewrite round_Fin_pos by lra.
    rewrite spec_linear by lia. reflexivity.
  - rewrite exponential_branch, exponent_in_range by lia.
    assert (Rpower base 1 <= Rpower base (IZR (l - 14)))
      by (apply power_monotone, (IZR_le 1); lia).
    assert (Rpower base (IZR (l - 14)) <= Rpower base 10222)
      by (apply power_monotone, IZR_le; lia).
    rewrite Rpower_1 in * by (unfold base; lra).
    pose proof scaled_in_range. pose proof tiny_below_millionth.
    unfold base in *. fold base in *.
    assert (1 < base) by apply base_gt_1.
    rewrite pow_Fin by lra. cbn [bind Py.mul].
    rewrite round_Fin_pos by lra.
    rewrite spec_exponential by lia. do 2 f_equal. lra.
Qed.

(** Bands [10237 .. 10337]: the power is a float, its product with
    [1073.4] is not. *)
Lemma centerFrequency_infinite (l : Z) :
  (10237 <= l <= 10337)%Z -> getCenterFrequency l = Ok PInf.
Proof.
  intros H. pose proof int_limit_value as Hlim.
  rewrite exponential_branch, exponent_in_range by lia.
  assert (Rpower base 10223 <= Rpower base (IZR (l - 14)))
    by (apply power_monotone, IZR_le; lia).
  assert (Rpower base (IZR (l - 14)) <= Rpower base 10323)
    by (apply power_monotone, IZR_le; lia).
  pose proof scaled_overflows. pose proof pow_in_range.
  pose proof million_below_huge. pose proof tiny_below_millionth.
  rewrite pow_Fin by lra. cbn [bind Py.mul].
  unfold Py.round, Py.overflow.
  rewrite Rabs_pos_eq by lra.
  destruct (Rle_dec (Rpower base (IZR (l - 14)) * 1073.4) tiny); [lra |].
  destruct (Rle_dec huge (Rpower base (IZR (l - 14)) * 1073.4));
    [reflexivity | lra].
Qed.

(** Bands from [10338] on: the power overflows, or the index is too
    large an int to be made a float. *)
Lemma centerFrequency_overflow (l : Z) :
  (10338 <= l)%Z -> getCenterFrequency l = Raise OverflowError.
Proof.
  intros H. pose proof int_limit_value as Hlim.
  destruct (Z_lt_le_dec (Z.abs l) int_limit) as [Hin | Hout].
  - rewrite exponential_branch, exponent_in_range by lia.
    assert (Rpower base 10324 <= Rpower base (IZR (l - 14)))
      by (apply power_monotone, IZR_le; lia).
    pose proof pow_overflows.
    cbn [Py.pow bind]. fold base.
    destruct (Rle_dec huge (Rpower base (IZR (l - 14)))); [reflexivity | lra].
  - unfold getCenterFrequency.
    replace (l =? 0)%Z with false by (symmetry; apply Z.eqb_neq; lia).
    rewrite linear_test_false by lia.
    rewrite of_int_overflow by assumption. reflexivity.
Qed.

(** Bands from [-10825] down: the power underflows to zero. *)
Lemma centerFrequency_underflow (l : Z) :
  (- int_limit < l <= -10825)%Z -> getCenterFrequency l = Ok (Fin 0).
Proof.
  intros H. pose proof int_limit_value as Hlim.
  rewrite exponential_branch by lia.
  assert (forall f, Py.pow 1.0711703 f = Ok (Fin 0) ->
                    (centerFrequency <- Py.pow 1.0711703 f ;;
                     Ok (Py.mul centerFrequency (Fin 1073.4))) = Ok (Fin 0))
    as Hzero.
  { intros f ->. cbn [bind]. rewrite mul_zero_l. reflexivity. }
  apply Hzero. unfold Py.overflow. pose proof huge_pos.
  assert (IZR l <= -10825) as Hl by (apply IZR_le; lia).
  destruct (Rle_dec huge (IZR l - 14)); [lra |].
  destruct (Rle_dec (IZR l - 14) (- huge)); [reflexivity |].
  assert (Rpower base (IZR l - 14) <= Rpower base (-10839))
    by (apply power_monotone; lra).
  pose proof pow_flushed. pose proof (power_positive (IZR l - 14)).
  pose proof tiny_below_millionth. pose proof million_below_huge.
  cbn [Py.pow]. fold base.
  destruct (Rle_dec huge (Rpower base (IZR l - 14))); [lra |].
  unfold Py.round. rewrite Rabs_pos_eq by lra.
  destruct (Rle_dec (Rpower base (IZR l - 14)) tiny); [reflexivity | lra].
Qed.

Lemma centerFrequency_too_negative (l : Z) :
  (l <= - int_limit)%Z -> getCenterFrequency l = Raise OverflowError.
Proof.
  intros H. pose proof int_limit_value as Hlim.
  unfold getCenterFrequency.
  replace (l =? 0)%Z with false by (symmetry; apply Z.eqb_neq; lia).
  rewrite linear_test_false by lia.
  rewrite of_int_overflow by lia. reflexivity.
Qed.

(** ** The magnitude factor *)

Lemma Rpower_base_succ (y : R) : Rpower base (y + 1) = base * Rpower base y.
Proof.
  rewrite Rpower_plus, Rpower_1 by (unfold base; lra). apply Rmult_comm.
Qed.

Lemma spec_succ_exponential (l : Z) :
  (14 < l \/ l < -1)%Z ->
  Spec.centerFrequency (l + 1) = base * Spec.centerFrequency l.
Proof.
  intros H. rewrite !spec_exponential by lia.
  replace (IZR (l + 1 - 14)) with (IZR (l - 14) + 1)
    by (rewrite !minus_IZR, plus_IZR; lra).
  rewrite Rpower_base_succ. lra.
Qed.

(** The bandwidth [CenterFrequency(l+1) - CenterFrequency(l-1)] of an
    exponential band is at least that of a linear one. *)
Lemma bandwidth_lower_bound (l : Z) :
  (15 <= l)%Z ->
  400 / 3 <= Spec.centerFrequency (l + 1) - Spec.centerFrequency (l - 1).
Proof.
  intros H. destruct (Z.eq_dec l 15) as [-> | Hl].
  - replace (15 - 1)%Z with 14%Z by lia.
    rewrite (spec_succ_exponential 15) by lia.
    rewrite (spec_linear 14) by lia.
    rewrite (spec_exponential 15) by lia.
    replace (IZR (15 - 14)) with 1 by (cbn; lra).
    rewrite Rpower_1 by (unfold base; lra). unfold base. lra.
  - replace (l + 1)%Z with ((l - 1 + 1) + 1)%Z by lia.
    rewrite (spec_succ_exponential (l - 1 + 1)) by lia.
    rewrite (spec_succ_exponential (l - 1)) by lia.
    assert (Spec.centerFrequency 15 <= Spec.centerFrequency (l - 1)) as Hge.
    { destruct (Z.eq_dec (l - 1) 15) as [E | Hne]; [rewrite E; lra |].
      apply Rlt_le, spec_increasing; lia. }
    rewrite (spec_exponential 15) in Hge by lia.
    replace (IZR (15 - 14)) with 1 in Hge by (cbn; lra).
    rewrite Rpower_1 in Hge by (unfold base; lra). unfold base in *.
    assert (0 <= 1.0711703 * 1.0711703 - 1) by lra. nra.
Qed.

Lemma magnitudeFactor_linear (l : Z) :
  (1 <= l <= 14)%Z -> getMagnitudeFactor l = Ok (Fin 0.015).
Proof.
  intros H. unfold getMagnitudeFactor.
  replace ((l >=? 1) && (l <=? 14))%Z with true; [reflexivity |].
  symmetry; apply linear_test; lia.
Qed.

Lemma exponential_test (l : Z) :
  ((l >=? 15) && (l <=? 48))%Z = true <-> (15 <= l <= 48)%Z.
Proof. rewrite andb_true_iff, Z.geb_le, Z.leb_le. tauto. Qed.

(** In the bands [15 .. 48] the two centres are finite floats, their
    difference is positive and the quotient is in range. *)
Lemma magnitudeFactor_bandwidth (l : Z) :
  (15 <= l <= 48)%Z ->
  getMagnitudeFactor l
  = Ok (Fin (2.0 / (Spec.centerFrequency (l + 1)
                    - Spec.centerFrequency (l - 1)))).
Proof.
  intros H. unfold getMagnitudeFactor.
  rewrite linear_test_false by lia.
  replace ((l >=? 15) && (l <=? 48))%Z with true
    by (symmetry; apply exponential_test; lia).
  rewrite !centerFrequency_finite by lia. cbn [bind].
  pose proof (bandwidth_lower_bound l ltac:(lia)) as Hbw.
  pose proof (spec_below_huge (l + 1) ltac:(lia)) as Hup.
  pose proof (spec_nonneg (l - 1)) as Hlow.
  set (a := Spec.centerFrequency (l + 1)) in *.
  set (b := Spec.centerFrequency (l - 1)) in *.
  rewrite sub_Fin by (rewrite Rabs_pos_eq by lra; lra).
  rewrite truediv_Fin by lra.
  pose proof (inv_above_tiny (a - b) ltac:(lra) ltac:(lra)) as Hinv.
  pose proof tiny_pos. pose proof million_below_huge.
  assert ((a - b) * / (a - b) = 1) as Hone by (apply Rinv_r; lra).
  rewrite round_Fin_pos; [reflexivity | unfold Rdiv; nra | unfold Rdiv; nra].
Qed.

Lemma magnitudeFactor_outside (l : Z) :
  (l < 1 \/ 48 < l)%Z -> getMagnitudeFactor l = Ok (Fin 0).
Proof.
  intros H. unfold getMagnitudeFactor.
  rewrite linear_test_false by lia.
  replace ((l >=? 15) && (l <=? 48))%Z with false
    by (symmetry; apply not_true_is_false; rewrite exponential_test; lia).
  cbv zeta. do 2 f_equal; lra.
Qed.

(** ** The filter parameter *)

Lemma int_truediv_zero (a : Z) : Py.int_truediv a 0 = Raise ZeroDivisionError.
Proof. reflexivity. Qed.

Lemma int_truediv_overflow (a b : Z) :
  b <> 0%Z -> (int_limit * Z.abs b <= Z.abs a)%Z ->
  Py.int_truediv a b = Raise OverflowError.
Proof.
  intros Hb H. unfold Py.int_truediv.
  replace (b =? 0)%Z with false by (symmetry; apply Z.eqb_neq; assumption).
  replace (int_limit * Z.abs b <=? Z.abs a)%Z with true; [reflexivity |].
  symmetry; apply Z.leb_le; assumption.
Qed.

Lemma int_truediv_ok (a b : Z) :
  b <> 0%Z -> (Z.abs a < int_limit * Z.abs b)%Z ->
  Py.int_truediv a b = Ok (Py.round (IZR a / IZR b))
  /\ Rabs (IZR a / IZR b) < huge.
Proof.
  intros Hb H. split.
  - unfold Py.int_truediv.
    replace (b =? 0)%Z with false by (symmetry; apply Z.eqb_neq; assumption).
    replace (int_limit * Z.abs b <=? Z.abs a)%Z with false; [reflexivity |].
    symmetry; apply Z.leb_gt; assumption.
  - assert (IZR b <> 0) as Hr by (intros E; apply eq_IZR_R0 in E; contradiction).
    unfold Rdiv. rewrite Rabs_mult, Rabs_inv, <- !abs_IZR.
    assert (0 < IZR (Z.abs b)) as Hpos by (apply (IZR_lt 0); lia).
    apply IZR_lt in H. rewrite mult_IZR in H. fold huge in H.
    apply Rmult_lt_reg_r with (IZR (Z.abs b)); [assumption |].
    replace (IZR (Z.abs a) * / IZR (Z.abs b) * IZR (Z.abs b))
      with (IZR (Z.abs a)) by (field; lra).
    exact H.
Qed.

(** The frequency of a bin, when the quotient is in range, is a finite
    float. *)
Lemma boundary_finite (samplingRate binSize k : Z) :
  binSize <> 0%Z ->
  (Z.abs (k * samplingRate) < int_limit * Z.abs binSize)%Z ->
  exists b, Py.int_truediv (k * samplingRate) binSize = Ok (Fin b).
Proof.
  intros Hb H. destruct (int_truediv_ok _ _ Hb H) as [-> Hq].
  destruct (round_finite _ Hq) as [y [-> _]]. exists y; reflexivity.
Qed.

Section Branches.

Variables samplingRate binSize k l : Z.
Variable b : R.
Hypothesis boundary_is :
  Py.int_truediv (k * samplingRate) binSize = Ok (Fin b).

(** The centre lies at or below the edge: the first test covers
    everything from [0] to the edge, the last two tests the rest. *)
Lemma branches_ordered (tv pv : R) :
  getCenterFrequency (l + 1) = Ok (Fin pv) ->
  getCenterFrequency l = Ok (Fin tv) ->
  0 <= tv <= pv ->
  getFilterParameter samplingRate binSize k l = Ok (Fin 0).
Proof.
  intros Hp Ht Hord. unfold getFilterParameter.
  rewrite boundary_is, Hp, Ht. cbn [bind]. cbv zeta.
  destruct (Rlt_le_dec b pv) as [Hlt | Hge].
  - destruct (Rle_lt_dec 0 b) as [Hpos | Hneg].
    + rewrite between_true by assumption. do 2 f_equal; lra.
    + rewrite !between_false by (left; lra). do 2 f_equal; lra.
  - rewrite !between_false by (right; lra).
    destruct (Py.geb (Fin b) (Fin pv) && Py.ltb (Fin b) (Fin (IZR samplingRate)));
      do 2 f_equal; lra.
Qed.

(** The edge is infinite. *)
Lemma branches_infinite_edge (t : float) :
  getCenterFrequency (l + 1) = Ok PInf ->
  getCenterFrequency l = Ok t ->
  (t = PInf \/ exists tv, t = Fin tv /\ 0 <= tv) ->
  getFilterParameter samplingRate binSize k l = Ok (Fin 0).
Proof.
  intros Hp Ht Hshape. unfold getFilterParameter.
  rewrite boundary_is, Hp, Ht. cbn [bind]. cbv zeta.
  destruct (Rle_lt_dec 0 b) as [Hpos | Hneg].
  - replace (Py.geb (Fin b) (Fin 0)) with true
      by (symmetry; apply geb_Fin; assumption).
    cbn [Py.ltb andb]. do 2 f_equal; lra.
  - replace (Py.geb (Fin b) (Fin 0)) with false
      by (symmetry; apply not_true_is_false; intros E; apply geb_Fin in E; lra).
    destruct Hshape as [-> | [tv [-> Htv]]].
    + cbn [Py.geb Py.ltb andb]. do 2 f_equal; lra.
    + replace (Py.geb (Fin b) (Fin tv)) with false
        by (symmetry; apply not_true_is_false; intros E;
            apply geb_Fin in E; lra).
      cbn [Py.geb Py.ltb andb]. do 2 f_equal; lra.
Qed.

(** The edge is the origin (band [-1]): the second branch is reached,
    with a magnitude factor [0]. *)
Lemma branches_origin_edge (tv : R) :
  getCenterFrequency (l + 1) = Ok (Fin 0) ->
  getCenterFrequency l = Ok (Fin tv) ->
  0 < tv < huge ->
  getMagnitudeFactor l = Ok (Fin 0) ->
  getFilterParameter samplingRate binSize k l = Ok (Fin 0).
Proof.
  intros Hp Ht Htv Hmf. unfold getFilterParameter.
  rewrite boundary_is, Hp, Ht. cbn [bind]. cbv zeta.
  rewrite (between_false 0 b 0) by (destruct (Rlt_le_dec b 0); [left | right]; lra).
  destruct (Rle_lt_dec 0 b) as [Hpos | Hneg];
    [destruct (Rlt_le_dec b tv) as [Hlt | Hge] |].
  - rewrite between_true by assumption.
    rewrite !sub_Fin by (rewrite Rabs_pos_eq by lra; lra).
    rewrite truediv_Fin by lra.
    assert (Rabs ((b - 0) / (tv - 0)) < huge) as Hq.
    { pose proof million_below_huge.
      assert (0 <= (b - 0) / (tv - 0) < 1).
      { assert (0 < / (tv - 0)) by (apply Rinv_0_lt_compat; lra).
        assert ((tv - 0) * / (tv - 0) = 1) by (apply Rinv_r; lra).
        unfold Rdiv. split; nra. }
      rewrite Rabs_pos_eq by lra. lra. }
    destruct (round_finite _ Hq) as [y [-> _]]. cbn [bind].
    rewrite Hmf. cbn [bind]. rewrite mul_zero_r. reflexivity.
  - rewrite !between_false by (right; lra).
    destruct (Py.geb (Fin b) (Fin 0) && Py.ltb (Fin b) (Fin (IZR samplingRate)));
      do 2 f_equal; lra.
  - rewrite !between_false by (left; lra). do 2 f_equal; lra.
Qed.

End Branches.

(** Every band whose two centres are floats has weight [0.0] at every
    bin whose frequency is a float. *)
Lemma filterParameter_zero (samplingRate binSize k l : Z) :
  binSize <> 0%Z ->
  (Z.abs (k * samplingRate) < int_limit * Z.abs binSize)%Z ->
  (- int_limit < l <= 10336)%Z ->
  getFilterParameter samplingRate binSize k l = Ok (Fin 0).
Proof.
  intros Hbin Hq Hl. pose proof int_limit_value as Hlim.
  destruct (boundary_finite _ _ _ Hbin Hq) as [b Hb].
  destruct (Z_le_gt_dec l (-10826)) as [H1 | H1];
    [| destruct (Z.eq_dec l (-10825)) as [H2 | H2];
       [| destruct (Z_le_gt_dec l (-2)) as [H3 | H3];
          [| destruct (Z.eq_dec l (-1)) as [H4 | H4];
             [| destruct (Z_le_gt_dec l 10235) as [H5 | H5];
                [| destruct (Z.eq_dec l 10236) as [H6 | H6]]]]]].
  - apply (branches_ordered _ _ _ _ b Hb 0 0);
      [apply centerFrequency_underflow; lia
      | apply centerFrequency_underflow; lia | lra].
  - subst l.
    apply (branches_ordered _ _ _ _ b Hb 0 (Spec.centerFrequency (-10825 + 1)));
      [apply centerFrequency_finite; lia
      | apply centerFrequency_underflow; lia
      | split; [lra | apply spec_nonneg]].
  - apply (branches_ordered _ _ _ _ b Hb (Spec.centerFrequency l)
             (Spec.centerFrequency (l + 1)));
      [apply centerFrequency_finite; lia | apply centerFrequency_finite; lia |].
    split; [apply spec_nonneg |].
    destruct (Z.eq_dec l (-2)) as [-> | Hne].
    + apply Rlt_le. rewrite !spec_exponential by lia.
      assert (Rpower base (IZR (-2 - 14)) < Rpower base (IZR (-2 + 1 - 14)))
        by (apply Rpower_lt; [apply base_gt_1 | apply IZR_lt; lia]).
      lra.
    + apply Rlt_le, spec_increasing_negative; lia.
  - subst l.
    apply (branches_origin_edge _ _ _ _ b Hb (Spec.centerFrequency (-1)));
      [apply (centerFrequency_finite 0); lia
      | apply centerFrequency_finite; lia
      | split; [apply spec_pos; lia | apply spec_below_huge; lia]
      | apply magnitudeFactor_outside; lia].
  - apply (branches_ordered _ _ _ _ b Hb (Spec.centerFrequency l)
             (Spec.centerFrequency (l + 1)));
      [apply centerFrequency_finite; lia | apply centerFrequency_finite; lia |].
    split; [apply spec_nonneg | apply Rlt_le, spec_increasing; lia].
  - subst l.
    apply (branches_infinite_edge _ _ _ _ b Hb (Fin (Spec.centerFrequency 10236)));
      [apply centerFrequency_infinite; lia
      | apply centerFrequency_finite; lia
      | right; eexists; split; [reflexivity | apply spec_nonneg]].
  - apply (branches_infinite_edge _ _ _ _ b Hb PInf);
      [apply centerFrequency_infinite; lia
      | apply centerFrequency_infinite; lia
      | left; reflexivity].
Qed.

(** How [getFilterParameter] fails. *)
Lemma filterParameter_zero_binSize (samplingRate k l : Z) :
  getFilterParameter samplingRate 0 k l = Raise ZeroDivisionError.
Proof. unfold getFilterParameter. rewrite int_truediv_zero. reflexivity. Qed.

Lemma filterParameter_quotient_overflow (samplingRate binSize k l : Z) :
  binSize <> 0%Z ->
  (int_limit * Z.abs binSize <= Z.abs (k * samplingRate))%Z ->
  getFilterParameter samplingRate binSize k l = Raise OverflowError.
Proof.
  intros Hbin H. unfold getFilterParameter.
  rewrite int_truediv_overflow by assumption. reflexivity.
Qed.

Lemma filterParameter_band_overflow (samplingRate binSize k l : Z) :
  binSize <> 0%Z ->
  (Z.abs (k * samplingRate) < int_limit * Z.abs binSize)%Z ->
  (l <= - int_limit \/ 10337 <= l)%Z ->
  getFilterParameter samplingRate binSize k l = Raise OverflowError.
Proof.
  intros Hbin Hq Hl. pose proof int_limit_value as Hlim.
  destruct (boundary_finite _ _ _ Hbin Hq) as [b Hb].
  unfold getFilterParameter. rewrite Hb. cbn [bind].
  destruct Hl as [Hl | Hl].
  - destruct (Z.eq_dec l (- int_limit)) as [-> | Hne].
    + rewrite centerFrequency_underflow by lia. cbn [bind].
      rewrite centerFrequency_too_negative by lia. reflexivity.
    + rewrite centerFrequency_too_negative by lia. reflexivity.
  - rewrite centerFrequency_overflow by lia. reflexivity.
Qed.

(** The weight is [0] wherever the call returns, hence everywhere. *)
Lemma weight_zero (samplingRate binSize k l : Z) :
  Spec.weight samplingRate binSize k l = 0.
Proof.
  unfold Spec.weight.
  destruct (Z.eq_dec binSize 0) as [-> | Hbin].
  { rewrite filterParameter_zero_binSize. reflexivity. }
  destruct (Z_lt_le_dec (Z.abs (k * samplingRate)) (int_limit * Z.abs binSize))
    as [Hq | Hq].
  - destruct (Z_lt_le_dec (- int_limit) l) as [Hlo | Hlo];
      [destruct (Z_le_gt_dec l 10336) as [Hhi | Hhi] |].
    + rewrite filterParameter_zero by (assumption || lia). reflexivity.
    + rewrite filterParameter_band_overflow by (assumption || lia). reflexivity.
    + rewrite filterParameter_band_overflow by (assumption || lia). reflexivity.
  - rewrite filterParameter_quotient_overflow by assumption. reflexivity.
Qed.

(** ** The normalization factor *)

Lemma normalization_ok (numFilters m : Z) :
  (1 <= numFilters < int_limit)%Z ->
  getNormalizationFactor numFilters m
  = Ok (Fin (Spec.normalization numFilters m)).
Proof.
  intros Hnf.
  assert (1 <= IZR numFilters) as Hr by (apply IZR_le; lia).
  assert (IZR numFilters < huge) as Hh by (apply IZR_lt; lia).
  pose proof (inv_above_tiny (IZR numFilters) ltac:(lra) Hh) as Hinv.
  pose proof tiny_pos. pose proof million_below_huge.
  assert (/ IZR numFilters <= 1)
    by (rewrite <- Rinv_1; apply Rinv_le_contravar; lra).
  unfold getNormalizationFactor, Spec.normalization.
  rewrite of_int_ok by lia.
  destruct (m =? 0)%Z; cbn [bind]; rewrite truediv_Fin by lra;
    (rewrite round_Fin_pos by (unfold Rdiv; lra)); cbn [bind Py.sqrt];
    match goal with
    | |- context [Rlt_dec ?x 0] => destruct (Rlt_dec x 0) as [Hn | _]
    end; try (exfalso; unfold Rdiv in Hn; lra);
    do 3 f_equal; lra.
Qed.

Lemma normalization_errors (numFilters m : Z) :
  (numFilters = 0%Z ->
   getNormalizationFactor numFilters m = Raise ZeroDivisionError)
  /\ ((- int_limit < numFilters < 0)%Z ->
      getNormalizationFactor numFilters m = Raise ValueError)
  /\ ((int_limit <= Z.abs numFilters)%Z ->
      getNormalizationFactor numFilters m = Raise OverflowError).
Proof.
  refine (conj _ (conj _ _)).
  - intros ->. unfold getNormalizationFactor.
    rewrite of_int_ok by (pose proof int_limit_value; cbn [Z.abs]; lia).
    destruct (m =? 0)%Z; cbn [bind]; rewrite truediv_zero; reflexivity.
  - intros H. assert (IZR numFilters <= -1) as Hr by (apply (IZR_le _ (-1)); lia).
    assert (- huge < IZR numFilters)
      by (unfold huge; rewrite <- opp_IZR; apply IZR_lt; lia).
    pose proof (inv_above_tiny (- IZR numFilters) ltac:(lra) ltac:(lra)) as Hinv.
    rewrite Rinv_opp in Hinv.
    pose proof tiny_pos. pose proof million_below_huge.
    assert (-1 <= / IZR numFilters).
    { assert (/ - IZR numFilters <= 1)
        by (rewrite <- Rinv_1; apply Rinv_le_contravar; lra).
      rewrite Rinv_opp in *. lra. }
    unfold getNormalizationFactor. rewrite of_int_ok by lia.
    destruct (m =? 0)%Z; cbn [bind]; rewrite truediv_Fin by lra;
      (rewrite round_Fin
         by (rewrite Rabs_left by (unfold Rdiv; lra); unfold Rdiv; lra));
      cbn [bind Py.sqrt];
      match goal with
      | |- context [Rlt_dec ?x 0] => destruct (Rlt_dec x 0) as [_ | Hn]
      end; try reflexivity; exfalso; apply Hn; unfold Rdiv; lra.
  - intros H. unfold getNormalizationFactor.
    rewrite of_int_overflow by assumption. destruct (m =? 0)%Z; reflexivity.
Qed.

(** ** Loops and sums *)

Lemma sum_from_zero (f : Z -> R) (n : nat) (lo : Z) :
  (forall i, (lo <= i < lo + Z.of_nat n)%Z -> f i = 0) -> sum_from f lo n = 0.
Proof.
  revert lo; induction n as [| n IH]; intros lo H; cbn [sum_from]; [reflexivity |].
  rewrite (H lo) by lia. rewrite IH by (intros i Hi; apply H; lia). lra.
Qed.

(** A loop whose body leaves the accumulator as it is. *)
Lemma for_each_fixed {A : Type} (body : Z -> A -> result A) (acc : A) :
  forall (n : nat) (lo : Z),
    (forall i, (lo <= i < lo + Z.of_nat n)%Z -> body i acc = Ok acc) ->
    Py.for_each (Py.iota lo n) body acc = Ok acc.
Proof.
  induction n as [| n IH]; intros lo H; cbn [Py.iota Py.for_each]; [reflexivity |].
  rewrite H by lia. cbn [bind]. apply IH. intros i Hi. apply H; lia.
Qed.

(** Two loops whose bodies agree on the range agree. *)
Lemma for_each_ext {A : Type} (body body' : Z -> A -> result A) :
  forall (n : nat) (lo : Z) (acc : A),
    (forall i a, (lo <= i < lo + Z.of_nat n)%Z -> body i a = body' i a) ->
    Py.for_each (Py.iota lo n) body acc = Py.for_each (Py.iota lo n) body' acc.
Proof.
  induction n as [| n IH]; intros lo acc H; cbn [Py.iota Py.for_each]; [reflexivity |].
  rewrite H by lia. destruct (body' lo acc) as [a | e]; cbn [bind]; [| reflexivity].
  apply IH. intros i a' Hi. apply H; lia.
Qed.

(** A loop raises what its body raises at the first index where it does. *)
Lemma for_each_raises_at {A : Type} (body : Z -> A -> result A) (e : exn) :
  forall (n : nat) (lo j : Z) (acc : A),
    (lo <= j < lo + Z.of_nat n)%Z ->
    (forall i a, (lo <= i < j)%Z -> exists a', body i a = Ok a') ->
    (forall a, body j a = Raise e) ->
    Py.for_each (Py.iota lo n) body acc = Raise e.
Proof.
  induction n as [| n IH]; intros lo j acc Hj Hok Hraise; [lia |].
  cbn [Py.iota Py.for_each].
  destruct (Z.eq_dec lo j) as [-> | Hne].
  - rewrite Hraise. reflexivity.
  - destruct (Hok lo acc ltac:(lia)) as [a' ->]. cbn [bind].
    apply (IH (lo + 1)%Z j); [lia | intros i a Hi; apply Hok; lia | assumption].
Qed.

(** An index inside the array reads the element. *)
Lemma getitem_inside (a : list R) (k : Z) :
  (0 <= k < Z.of_nat (length a))%Z ->
  Py.getitem a k = Ok (Fin (nth (Z.to_nat k) a 0)).
Proof.
  intros H. unfold Py.getitem. cbv zeta.
  replace (k <? 0)%Z with false by (symmetry; apply Z.ltb_ge; lia).
  replace ((0 <=? k) && (k <? Z.of_nat (length a)))%Z with true
    by (symmetry; apply andb_true_iff; split;
        [apply Z.leb_le | apply Z.ltb_lt]; lia).
  rewrite (nth_error_nth' a 0) by lia. reflexivity.
Qed.

(** An index past the end raises. *)
Lemma getitem_outside (a : list R) (k : Z) :
  (Z.of_nat (length a) <= k)%Z -> Py.getitem a k = Raise IndexError.
Proof.
  intros H. unfold Py.getitem. cbv zeta.
  replace (k <? 0)%Z with false by (symmetry; apply Z.ltb_ge; lia).
  replace ((0 <=? k) && (k <? Z.of_nat (length a)))%Z with false; [reflexivity |].
  symmetry; apply andb_false_iff; right; apply Z.ltb_ge; lia.
Qed.

(** ** The loops of [getCoefficient] *)

Lemma quotient_in_range (samplingRate binSize k : Z) :
  (0 <= k < binSize)%Z -> (Z.abs samplingRate < int_limit)%Z ->
  (Z.abs (k * samplingRate) < int_limit * Z.abs binSize)%Z.
Proof.
  intros Hk Hs. rewrite Z.abs_mul.
  rewrite (Z.abs_eq k), (Z.abs_eq binSize) by lia.
  pose proof (Z.abs_nonneg samplingRate). nia.
Qed.

Lemma zero_literal : Fin 0.0 = Fin 0.
Proof. f_equal; lra. Qed.

Lemma binStep_zero (spectralData : list R) (samplingRate binSize l k : Z) :
  (0 <= k < binSize - 1)%Z -> (k < Z.of_nat (length spectralData))%Z ->
  (Z.abs samplingRate < int_limit)%Z -> (- int_limit < l <= 10336)%Z ->
  binStep spectralData samplingRate binSize l k (Fin 0) = Ok (Fin 0).
Proof.
  intros Hk Hlen Hs Hl. unfold binStep.
  rewrite getitem_inside by lia. cbn [bind].
  rewrite filterParameter_zero
    by (try apply quotient_in_range; assumption || lia).
  cbn [bind]. rewrite mul_zero_r. cbn [Py.fabs]. rewrite Rabs_R0.
  rewrite add_zero_zero. reflexivity.
Qed.

(** With every weight [0.0] the loop over the bins ends at [0.0]. *)
Lemma innerSumLoop_zero (spectralData : list R) (samplingRate binSize l : Z) :
  (binSize - 1 <= Z.of_nat (length spectralData))%Z ->
  (Z.abs samplingRate < int_limit)%Z -> (- int_limit < l <= 10336)%Z ->
  innerSumLoop spectralData samplingRate binSize l = Ok (Fin 0).
Proof.
  intros Hlen Hs Hl. unfold innerSumLoop, Py.range. rewrite zero_literal.
  apply for_each_fixed. intros k Hk. apply binStep_zero; assumption || lia.
Qed.

(** A frame with fewer than [binSize - 1] values stops the loop over the
    bins at the first missing one. *)
Lemma innerSumLoop_short (spectralData : list R) (samplingRate binSize l : Z) :
  (Z.of_nat (length spectralData) < binSize - 1)%Z ->
  (Z.abs samplingRate < int_limit)%Z -> (- int_limit < l <= 10336)%Z ->
  innerSumLoop spectralData samplingRate binSize l = Raise IndexError.
Proof.
  intros Hlen Hs Hl. unfold innerSumLoop, Py.range.
  apply (for_each_raises_at _ _ _ _ (Z.of_nat (length spectralData))).
  - lia.
  - intros k a Hk. unfold binStep.
    rewrite getitem_inside by lia. cbn [bind].
    rewrite filterParameter_zero
      by (try apply quotient_in_range; assumption || lia).
    cbn [bind]. eexists; reflexivity.
  - intros a. unfold binStep. rewrite getitem_outside by lia. reflexivity.
Qed.

(** A band beyond the last one whose centres are floats stops the loop
    over the bins at its first bin. *)
Lemma innerSumLoop_overflow (spectralData : list R) (samplingRate binSize l : Z) :
  (2 <= binSize)%Z -> (1 <= length spectralData)%nat ->
  (l <= - int_limit \/ 10337 <= l)%Z ->
  innerSumLoop spectralData samplingRate binSize l = Raise OverflowError.
Proof.
  intros Hbin Hlen Hl. unfold innerSumLoop, Py.range.
  pose proof int_limit_value as Hlim.
  apply (for_each_raises_at _ _ _ _ 0%Z).
  - lia.
  - intros k a Hk. lia.
  - intros a. unfold binStep. rewrite getitem_inside by lia. cbn [bind].
    rewrite filterParameter_band_overflow; [reflexivity | lia | | assumption].
    rewrite Z.mul_0_l. cbn [Z.abs]. lia.
Qed.

(** The argument of the cosine is a finite float. *)
Lemma angle_finite (numFilters m l : Z) :
  (- 2 ^ 1021 <= m <= 2 ^ 1021)%Z -> (1 <= l <= numFilters)%Z ->
  (numFilters < int_limit)%Z ->
  exists c : R, forall (A : Type) (K : float -> result A),
    (fm <- Py.of_int m ;;
     fn <- Py.of_int numFilters ;;
     q <- Py.truediv (Py.mul fm (Fin PI)) fn ;;
     fl <- Py.of_int l ;;
     c <- Py.cos (Py.mul q (Py.sub fl (Fin 0.5))) ;;
     K c) = K (Fin c).
Proof.
  intros Hm Hl Hnf. pose proof int_limit_large as Hlim.
  assert (2 ^ 1021 < 2 ^ 1023)%Z as Hpow by reflexivity.
  assert (Rabs (IZR m) <= IZR (2 ^ 1021)) as Hmr
    by (rewrite <- abs_IZR; apply IZR_le; lia).
  assert (4 * IZR (2 ^ 1021) = IZR (2 ^ 1023)) as H4
    by (rewrite <- mult_IZR; f_equal).
  pose proof huge_large as Hhuge. pose proof PI_4. pose proof PI_RGT_0.
  assert (1 <= IZR l) as Hl1 by (apply IZR_le; lia).
  assert (IZR l <= IZR numFilters) as Hl2 by (apply IZR_le; lia).
  assert (IZR numFilters < huge) as Hn by (apply IZR_lt; lia).
  assert (Rabs (IZR m * PI) < huge) as H1.
  { rewrite Rabs_mult, (Rabs_pos_eq PI) by lra.
    pose proof (Rabs_pos (IZR m)). nra. }
  destruct (round_finite _ H1) as [y1 [E1 B1]].
  assert (0 < / IZR numFilters <= 1) as Hinv.
  { split; [apply Rinv_0_lt_compat; lra |].
    rewrite <- Rinv_1. apply Rinv_le_contravar; lra. }
  assert (Rabs (y1 / IZR numFilters) <= Rabs y1 * / IZR numFilters) as H2a.
  { unfold Rdiv. rewrite Rabs_mult, (Rabs_pos_eq (/ IZR numFilters)) by lra. lra. }
  assert (Rabs (y1 / IZR numFilters) < huge) as H2.
  { pose proof (Rabs_pos y1). nra. }
  destruct (round_finite _ H2) as [y2 [E2 B2]].
  assert (Rabs (y2 * (IZR l - 0.5)) < huge) as H3.
  { rewrite Rabs_mult, (Rabs_pos_eq (IZR l - 0.5)) by lra.
    pose proof (Rabs_pos y1). pose proof (Rabs_pos y2).
    assert (IZR numFilters * / IZR numFilters = 1) by (apply Rinv_r; lra).
    assert (Rabs y2 * (IZR l - 0.5) <= Rabs y1); [| lra].
    apply Rle_trans with (Rabs y1 * / IZR numFilters * IZR numFilters);
      [| right; field; lra].
    apply Rmult_le_compat; lra. }
  destruct (round_finite _ H3) as [y3 [E3 _]].
  exists (cos y3). intros A K.
  rewrite !of_int_ok by lia. cbn [bind Py.mul]. rewrite E1.
  rewrite truediv_Fin by lra. rewrite E2. cbn [bind].
  rewrite sub_Fin by (rewrite Rabs_pos_eq by lra; lra).
  cbn [Py.mul]. rewrite E3. reflexivity.
Qed.

(** A band without energy adds [0.0] to [outerSum]. *)
Lemma bandStep_zero (spectralData : list R)
  (samplingRate numFilters binSize m l : Z) (outerSum : float) :
  (binSize - 1 <= Z.of_nat (length spectralData))%Z ->
  (Z.abs samplingRate < int_limit)%Z ->
  (- 2 ^ 1021 <= m <= 2 ^ 1021)%Z ->
  (1 <= l <= numFilters)%Z -> (numFilters <= 10336)%Z ->
  bandStep spectralData samplingRate numFilters binSize m l outerSum
  = Ok (Py.add outerSum (Fin 0)).
Proof.
  intros Hlen Hs Hm Hl Hnf. pose proof int_limit_value as Hlim.
  unfold bandStep. rewrite innerSumLoop_zero by (assumption || lia).
  cbn [bind Py.gtb Py.ltb].
  destruct (Rlt_dec 0 0) as [Habs | _]; [lra |]. cbn [bind].
  destruct (angle_finite numFilters m l Hm Hl ltac:(lia)) as [c Hc].
  rewrite Hc. rewrite mul_zero_l. reflexivity.
Qed.

Lemma bandLoop_zero (spectralData : list R)
  (samplingRate numFilters binSize m : Z) :
  (binSize - 1 <= Z.of_nat (length spectralData))%Z ->
  (Z.abs samplingRate < int_limit)%Z ->
  (- 2 ^ 1021 <= m <= 2 ^ 1021)%Z -> (numFilters <= 10336)%Z ->
  Py.for_each (Py.range 1 (numFilters + 1))
    (bandStep spectralData samplingRate numFilters binSize m) (Fin 0.0)
  = Ok (Fin 0).
Proof.
  intros Hlen Hs Hm Hnf. unfold Py.range. rewrite zero_literal.
  apply for_each_fixed. intros l Hl.
  rewrite bandStep_zero by (assumption || lia).
  rewrite add_zero_zero. reflexivity.
Qed.

Lemma guard_false (numFilters m : Z) :
  (m < numFilters)%Z -> (m >=? numFilters)%Z = false.
Proof. intros H. rewrite Z.geb_leb. apply Z.leb_gt. lia. Qed.

Lemma two_1021_value : (10336 < 2 ^ 1021)%Z.
Proof. reflexivity. Qed.

(** At the guard, [getCoefficient] returns before anything is computed. *)
Lemma getCoefficient_guarded (spectralData : list R)
  (samplingRate numFilters binSize m : Z) :
  (numFilters <= m)%Z ->
  getCoefficient spectralData samplingRate numFilters binSize m = Ok (Fin 0.0).
Proof.
  intros H. unfold getCoefficient.
  replace (m >=? numFilters)%Z with true; [reflexivity |].
  symmetry; apply Z.geb_le; lia.
Qed.

(** Below the guard and inside the range of the floats, the result is
    the product of the normalization factor and a sum that is [0.0]. *)
Lemma getCoefficient_zero (spectralData : list R)
  (samplingRate numFilters binSize m : Z) :
  (- 2 ^ 1021 <= m < numFilters)%Z -> (1 <= numFilters <= 10336)%Z ->
  (Z.abs samplingRate < int_limit)%Z ->
  (binSize - 1 <= Z.of_nat (length spectralData))%Z ->
  getCoefficient spectralData samplingRate numFilters binSize m = Ok (Fin 0).
Proof.
  intros Hm Hnf Hs Hlen. pose proof int_limit_value as Hlim.
  pose proof two_1021_value as H21.
  unfold getCoefficient. rewrite guard_false by lia.
  rewrite normalization_ok by lia. cbn [bind].
  rewrite bandLoop_zero by (assumption || lia). cbn [bind].
  rewrite mul_zero_r. reflexivity.
Qed.

(** A frame too short for the loop over the bins: [IndexError] in the
    first band. *)
Lemma getCoefficient_short (spectralData : list R)
  (samplingRate numFilters binSize m : Z) :
  (m < numFilters)%Z -> (1 <= numFilters < int_limit)%Z ->
  (Z.abs samplingRate < int_limit)%Z ->
  (Z.of_nat (length spectralData) < binSize - 1)%Z ->
  getCoefficient spectralData samplingRate numFilters binSize m
  = Raise IndexError.
Proof.
  intros Hm Hnf Hs Hlen. pose proof int_limit_value as Hlim.
  unfold getCoefficient. rewrite guard_false by lia.
  rewrite normalization_ok by lia. cbn [bind]. unfold Py.range.
  destruct (Z.to_nat (numFilters + 1 - 1)) as [| n] eqn:En; [lia |].
  cbn [Py.iota Py.for_each]. unfold bandStep at 1.
  rewrite innerSumLoop_short by (assumption || lia). reflexivity.
Qed.

(** More than [10336] bands: [OverflowError] in band [10337], whose edge
    [CenterFrequency(10338)] is not a float. *)
Lemma getCoefficient_overflow (spectralData : list R)
  (samplingRate numFilters binSize m : Z) :
  (- 2 ^ 1021 <= m <= 2 ^ 1021)%Z -> (m < numFilters)%Z ->
  (10337 <= numFilters < int_limit)%Z ->
  (Z.abs samplingRate < int_limit)%Z ->
  (2 <= binSize)%Z -> (binSize - 1 <= Z.of_nat (length spectralData))%Z ->
  getCoefficient spectralData samplingRate numFilters binSize m
  = Raise OverflowError.
Proof.
  intros Hm Hlt Hnf Hs Hbin Hlen. pose proof int_limit_value as Hlim.
  unfold getCoefficient. rewrite guard_false by lia.
  rewrite normalization_ok by lia. cbn [bind]. unfold Py.range.
  rewrite (for_each_raises_at _ OverflowError _ 1 10337); [reflexivity | lia | |].
  - intros l a Hl. unfold bandStep.
    rewrite innerSumLoop_zero by (assumption || lia).
    cbn [bind Py.gtb Py.ltb].
    destruct (Rlt_dec 0 0) as [Habs | _]; [lra |]. cbn [bind].
    destruct (angle_finite numFilters m l Hm ltac:(lia) ltac:(lia)) as [c Hc].
    rewrite Hc. eexists; reflexivity.
  - intros a. unfold bandStep.
    rewrite innerSumLoop_overflow by lia. reflexivity.
Qed.

Lemma innerSum_zero (spectralData : list R) (samplingRate binSize l : Z) :
  Spec.innerSum spectralData samplingRate binSize l = 0.
Proof.
  apply sum_from_zero. intros k _. rewrite weight_zero, Rmult_0_r.
  apply Rabs_R0.
Qed.

Lemma clampedLog_positive (x : R) : 0 < x -> Spec.clampedLog x = ln x.
Proof.
  intros H; unfold Spec.clampedLog.
  destruct (Rlt_dec 0 x); [reflexivity | contradiction].
Qed.

Lemma clampedLog_nonpositive (x : R) : x <= 0 -> Spec.clampedLog x = 0.
Proof. intros H; unfold Spec.clampedLog; destruct (Rlt_dec 0 x); [lra | reflexivity]. Qed.

Lemma outerSum_zero (spectralData : list R)
  (samplingRate numFilters binSize m : Z) :
  Spec.outerSum spectralData samplingRate numFilters binSize m = 0.
Proof.
  apply sum_from_zero. intros l _.
  rewrite innerSum_zero, clampedLog_nonpositive by lra. lra.
Qed.

(** A sampling rate so large that the frequency of bin [1] is not a
    float: [OverflowError] at bin [1] of band [1]. *)
Lemma getCoefficient_rate_overflow (spectralData : list R)
  (samplingRate numFilters binSize m : Z) :
  (m < numFilters)%Z -> (1 <= numFilters < int_limit)%Z ->
  (3 <= binSize)%Z -> (2 <= length spectralData)%nat ->
  (int_limit * binSize <= Z.abs samplingRate)%Z ->
  getCoefficient spectralData samplingRate numFilters binSize m
  = Raise OverflowError.
Proof.
  intros Hm Hnf Hbin Hlen Hs. pose proof int_limit_value as Hlim.
  unfold getCoefficient. rewrite guard_false by lia.
  rewrite normalization_ok by lia. cbn [bind]. unfold Py.range.
  destruct (Z.to_nat (numFilters + 1 - 1)) as [| n] eqn:En; [lia |].
  cbn [Py.iota Py.for_each]. unfold bandStep at 1.
  assert (innerSumLoop spectralData samplingRate binSize 1 = Raise OverflowError)
    as ->; [| reflexivity].
  unfold innerSumLoop, Py.range.
  apply (for_each_raises_at _ _ _ _ 1%Z).
  - lia.
  - intros k a Hk. assert (k = 0%Z) as -> by lia. unfold binStep.
    rewrite getitem_inside by lia. cbn [bind].
    rewrite filterParameter_zero; [eexists; reflexivity | lia | | lia].
    rewrite Z.mul_0_l. cbn [Z.abs]. lia.
  - intros a. unfold binStep. rewrite getitem_inside by lia. cbn [bind].
    rewrite filterParameter_quotient_overflow; [reflexivity | lia |].
    rewrite Z.mul_1_l, (Z.abs_eq binSize) by lia. assumption.
Qed.

(** An index [m] too large an int to be made a float: [OverflowError]
    when the first band multiplies it by [math.pi]. *)
Lemma getCoefficient_index_overflow (spectralData : list R)
  (samplingRate numFilters binSize m : Z) :
  (m <= - int_limit)%Z -> (1 <= numFilters <= 10336)%Z ->
  (Z.abs samplingRate < int_limit)%Z ->
  (binSize - 1 <= Z.of_nat (length spectralData))%Z ->
  getCoefficient spectralData samplingRate numFilters binSize m
  = Raise OverflowError.
Proof.
  intros Hm Hnf Hs Hlen. pose proof int_limit_value as Hlim.
  unfold getCoefficient. rewrite guard_false by lia.
  rewrite normalization_ok by lia. cbn [bind]. unfold Py.range.
  destruct (Z.to_nat (numFilters + 1 - 1)) as [| n] eqn:En; [lia |].
  cbn [Py.iota Py.for_each]. unfold bandStep at 1.
  rewrite innerSumLoop_zero by (assumption || lia).
  cbn [bind Py.gtb Py.ltb].
  destruct (Rlt_dec 0 0) as [Habs | _]; [lra |]. cbn [bind].
  rewrite of_int_overflow by lia. reflexivity.
Qed.

(** ** The center-frequency model (spec 4.1) *)

(** C3, as the code has it.  [getCenterFrequency] returns [0] at
    [l = 0], [(200 * l) / 3] for [1 <= l <= 14], and
    [1073.4 * 1.0711703 ^ (l - 14)] for [14 < l <= 10236] and, a negative
    [l] taking the exponential branch as well, for [-10824 <= l < 0].
    Beyond these bands the value leaves the range of the floats: the
    result is [inf] for [10237 <= l <= 10337], the power raises
    [OverflowError] from [10338] on, the power underflows to [0.0] from
    [-10825] down, and an index of magnitude [2^1024 - 2^970] or more is
    too large an int to be made a float. *)
Theorem centerFrequency_piecewise (l : Z) :
  (l = 0%Z -> getCenterFrequency l = Ok (Fin 0))
  /\ ((1 <= l <= 14)%Z ->
      getCenterFrequency l = Ok (Fin ((200.0 * IZR l) / 3.0)))
  /\ ((14 < l <= 10236)%Z ->
      getCenterFrequency l
      = Ok (Fin (1073.4 * powerRZ 1.0711703 (l - 14))))
  /\ ((-10824 <= l < 0)%Z ->
      getCenterFrequency l
      = Ok (Fin (1073.4 * powerRZ 1.0711703 (l - 14))))
  /\ ((10237 <= l <= 10337)%Z -> getCenterFrequency l = Ok PInf)
  /\ ((10338 <= l)%Z -> getCenterFrequency l = Raise OverflowError)
  /\ ((- int_limit < l <= -10825)%Z -> getCenterFrequency l = Ok (Fin 0))
  /\ ((l <= - int_limit)%Z -> getCenterFrequency l = Raise OverflowError).
Proof.
  assert (0 < 1.0711703) as Hbase by lra.
  refine (conj _ (conj _ (conj _ (conj _ (conj _ (conj _ (conj _ _))))))).
  - intros ->. reflexivity.
  - intros H. rewrite centerFrequency_finite, spec_linear by lia. reflexivity.
  - intros H. rewrite centerFrequency_finite, spec_exponential by lia.
    rewrite powerRZ_Rpower by exact Hbase. reflexivity.
  - intros H. rewrite centerFrequency_finite, spec_exponential by lia.
    rewrite powerRZ_Rpower by exact Hbase. reflexivity.
  - apply centerFrequency_infinite.
  - apply centerFrequency_overflow.
  - apply centerFrequency_underflow.
  - apply centerFrequency_too_negative.
Qed.

Lemma centerFrequency_piecewise_witness :
  getCenterFrequency 0 = Ok (Fin 0)
  /\ getCenterFrequency 1 = Ok (Fin ((200.0 * 1) / 3.0))
  /\ getCenterFrequency 15 = Ok (Fin (1073.4 * powerRZ 1.0711703 (15 - 14)))
  /\ getCenterFrequency (-3) = Ok (Fin (1073.4 * powerRZ 1.0711703 (-3 - 14))).
Proof.
  refine (conj _ (conj _ (conj _ _))).
  - apply (proj1 (centerFrequency_piecewise 0)); reflexivity.
  - apply (proj1 (proj2 (centerFrequency_piecewise 1))); lia.
  - apply (proj1 (proj2 (proj2 (centerFrequency_piecewise 15)))); lia.
  - apply (proj1 (proj2 (proj2 (proj2 (centerFrequency_piecewise (-3)))))); lia.
Defined.

(** C3, as it was stated, fails at three inputs: an index that is not
    accepted, one above [14] and one below [0] whose value is not that
    of the exponential formula. *)
Lemma centerFrequency_piecewise_counterexample :
  getCenterFrequency 10338 = Raise OverflowError
  /\ getCenterFrequency 10237 = Ok PInf
  /\ getCenterFrequency (-10825) = Ok (Fin 0)
  /\ 0 < 1073.4 * powerRZ 1.0711703 (-10825 - 14).
Proof.
  pose proof int_limit_value as Hlim.
  refine (conj _ (conj _ (conj _ _))).
  - apply centerFrequency_overflow; lia.
  - apply centerFrequency_infinite; lia.
  - apply centerFrequency_underflow; lia.
  - assert (0 < powerRZ 1.0711703 (-10825 - 14)) by (apply powerRZ_lt; lra).
    lra.
Qed.

(** C8. [getCenterFrequency] does not decrease on the band indices
    [0 .. 62]: for [0 <= l1 < l2 <= 62] both calls return a finite float
    and [getCenterFrequency l1 <= getCenterFrequency l2]. *)
Theorem centerFrequency_monotone (l1 l2 : Z) :
  (0 <= l1)%Z -> (l1 < l2)%Z -> (l2 <= 62)%Z ->
  exists f1 f2 : R,
    getCenterFrequency l1 = Ok (Fin f1)
    /\ getCenterFrequency l2 = Ok (Fin f2)
    /\ f1 <= f2.
Proof.
  intros H0 Hlt H62.
  exists (Spec.centerFrequency l1), (Spec.centerFrequency l2).
  refine (conj _ (conj _ _)).
  - apply centerFrequency_finite; lia.
  - apply centerFrequency_finite; lia.
  - apply Rlt_le, spec_increasing. lia.
Qed.

Lemma centerFrequency_monotone_witness :
  exists f1 f2 : R,
    getCenterFrequency 14 = Ok (Fin f1)
    /\ getCenterFrequency 15 = Ok (Fin f2)
    /\ f1 <= f2.
Proof. apply (centerFrequency_monotone 14 15); lia. Defined.

(** ** The magnitude normalizer (spec 4.2) *)

(** C6. [getMagnitudeFactor] returns [0.015] for [1 <= l <= 14],
    [2 / (CenterFrequency(l+1) - CenterFrequency(l-1))] for
    [15 <= l <= 48], the two centres being finite floats there, and [0]
    for every other [l]; it raises for no [l]. *)
Theorem magnitudeFactor_piecewise (l : Z) :
  ((1 <= l <= 14)%Z -> getMagnitudeFactor l = Ok (Fin 0.015))
  /\ ((15 <= l <= 48)%Z ->
      exists upper lower : R,
        getCenterFrequency (l + 1) = Ok (Fin upper)
        /\ getCenterFrequency (l - 1) = Ok (Fin lower)
        /\ getMagnitudeFactor l = Ok (Fin (2.0 / (upper - lower))))
  /\ ((l < 1 \/ l > 48)%Z -> getMagnitudeFactor l = Ok (Fin 0.0)).
Proof.
  refine (conj _ (conj _ _)).
  - apply magnitudeFactor_linear.
  - intros H.
    exists (Spec.centerFrequency (l + 1)), (Spec.centerFrequency (l - 1)).
    refine (conj _ (conj _ _)).
    + apply centerFrequency_finite; lia.
    + apply centerFrequency_finite; lia.
    + apply magnitudeFactor_bandwidth; assumption.
  - intros H. rewrite magnitudeFactor_outside by lia. do 2 f_equal; lra.
Qed.

Lemma magnitudeFactor_piecewise_witness :
  getMagnitudeFactor 14 = Ok (Fin 0.015)
  /\ (exists upper lower : R,
        getCenterFrequency (15 + 1) = Ok (Fin upper)
        /\ getCenterFrequency (15 - 1) = Ok (Fin lower)
        /\ getMagnitudeFactor 15 = Ok (Fin (2.0 / (upper - lower))))
  /\ getMagnitudeFactor 49 = Ok (Fin 0.0)
  /\ getMagnitudeFactor 0 = Ok (Fin 0.0).
Proof.
  refine (conj _ (conj _ (conj _ _))).
  - apply (proj1 (magnitudeFactor_piecewise 14)); lia.
  - apply (proj1 (proj2 (magnitudeFactor_piecewise 15))); lia.
  - apply (proj2 (proj2 (magnitudeFactor_piecewise 49))); lia.
  - apply (proj2 (proj2 (magnitudeFactor_piecewise 0))); lia.
Defined.

(** ** The filter response (spec 4.3) *)

(** C2, at bin [k = 1] of band [l = 7] with [samplingRate = 16000] and
    [binSize = 32].  The bin's frequency, 500 Hz, lies between
    [CenterFrequency(7)] and [CenterFrequency(8)], on the falling edge of
    band 7, where the third rule gives the weight
    [((500 - next) / (this - next)) * MagnitudeFactor(7) = 0.0075];
    [getFilterParameter] returns [0.0]: its first test,
    [0 <= boundary < prev], holds there because [prev] is
    [CenterFrequency(l+1)] as well. *)
Theorem filterParameter_falling_edge :
  exists this next : R,
    getCenterFrequency 7 = Ok (Fin this)
    /\ getCenterFrequency (7 + 1) = Ok (Fin next)
    /\ Py.int_truediv (1 * 16000) 32 = Ok (Fin 500)
    /\ this <= 500 < next
    /\ getMagnitudeFactor 7 = Ok (Fin 0.015)
    /\ (500 - next) / (this - next) * 0.015 = 0.0075
    /\ getFilterParameter 16000 32 1 7 = Ok (Fin 0).
Proof.
  pose proof int_limit_value as Hlim.
  exists (Spec.centerFrequency 7), (Spec.centerFrequency (7 + 1)).
  assert (Spec.centerFrequency 7 = 1400 / 3) as E7
    by (rewrite spec_linear by lia; lra).
  assert (Spec.centerFrequency (7 + 1) = 1600 / 3) as E8
    by (rewrite spec_linear by lia; cbn [Z.add Pos.add Pos.succ]; lra).
  refine (conj _ (conj _ (conj _ (conj _ (conj _ (conj _ _)))))).
  - apply centerFrequency_finite; lia.
  - apply centerFrequency_finite; lia.
  - replace (1 * 16000)%Z with 16000%Z by reflexivity.
    destruct (int_truediv_ok 16000 32) as [-> _]; [lia | cbn [Z.abs]; lia |].
    pose proof tiny_below_millionth. pose proof million_below_huge.
    rewrite round_Fin_pos by lra. do 2 f_equal. lra.
  - rewrite E7, E8. lra.
  - apply magnitudeFactor_linear; lia.
  - rewrite E7, E8. lra.
  - apply filterParameter_zero; [lia | cbn [Z.mul Pos.mul Z.abs]; lia | lia].
Qed.

(** ** The coefficient computer (spec 4.4) *)

(** C7, as the code has it.  For [1 <= numFilters < 2^1024 - 2^970],
    [getNormalizationFactor] returns [sqrt(1/numFilters)] at [m = 0] and
    at no other [m], and [sqrt(2/numFilters)] at every [m > 0]; from
    [2^1024 - 2^970] on, [numFilters] is too large an int to be made a
    float and [OverflowError] is raised. *)
Theorem normalizationFactor_cases (numFilters : Z) :
  ((1 <= numFilters < int_limit)%Z ->
   getNormalizationFactor numFilters 0 = Ok (Fin (sqrt (1 / IZR numFilters)))
   /\ (forall m, (m > 0)%Z ->
         getNormalizationFactor numFilters m
         = Ok (Fin (sqrt (2 / IZR numFilters))))
   /\ (forall m, getNormalizationFactor numFilters m
                 = Ok (Fin (sqrt (1 / IZR numFilters))) -> m = 0%Z))
  /\ ((int_limit <= numFilters)%Z ->
      forall m, getNormalizationFactor numFilters m = Raise OverflowError).
Proof.
  split.
  - intros Hnf.
    assert (1 <= IZR numFilters) as Hr by (apply IZR_le; lia).
    assert (0 < / IZR numFilters) as Hinv by (apply Rinv_0_lt_compat; lra).
    refine (conj _ (conj _ _)).
    + rewrite normalization_ok by assumption. reflexivity.
    + intros m Hm. rewrite normalization_ok by assumption.
      unfold Spec.normalization.
      replace (m =? 0)%Z with false by (symmetry; apply Z.eqb_neq; lia).
      reflexivity.
    + intros m H. rewrite normalization_ok in H by assumption.
      unfold Spec.normalization in H.
      destruct (Z.eqb_spec m 0) as [E | E]; [exact E | exfalso].
      injection H as H. apply sqrt_inj in H; unfold Rdiv in *; nra.
  - intros Hnf m. apply normalization_errors. lia.
Qed.

Lemma normalizationFactor_cases_witness :
  getNormalizationFactor 48 0 = Ok (Fin (sqrt (1 / 48)))
  /\ (forall m, (m > 0)%Z ->
        getNormalizationFactor 48 m = Ok (Fin (sqrt (2 / 48))))
  /\ (forall m, getNormalizationFactor 48 m = Ok (Fin (sqrt (1 / 48))) ->
                m = 0%Z).
Proof.
  apply (proj1 (normalizationFactor_cases 48)).
  pose proof int_limit_value. lia.
Defined.

(** C7, as it was stated, fails at a positive [numFilters]. *)
Lemma normalizationFactor_cases_counterexample :
  (0 < 2 ^ 1024)%Z
  /\ getNormalizationFactor (2 ^ 1024) 0 = Raise OverflowError
  /\ getNormalizationFactor (2 ^ 1024) 1 = Raise OverflowError.
Proof.
  assert (int_limit <= Z.abs (2 ^ 1024))%Z as H by (unfold int_limit; lia).
  refine (conj _ (conj _ _)); [reflexivity | |];
    apply normalization_errors; exact H.
Qed.

(** C5. When [m >= numFilters], [getCoefficient] returns [0.0] whatever
    the other arguments are: no normalization factor is computed (also
    [numFilters <= 0] returns [0.0]) and no bin is read (also a frame
    shorter than [binSize] returns [0.0]). *)
Theorem getCoefficient_sentinel (spectralData : list R)
  (samplingRate numFilters binSize m : Z) :
  (m >= numFilters)%Z ->
  getCoefficient spectralData samplingRate numFilters binSize m = Ok (Fin 0.0).
Proof. intros H. apply getCoefficient_guarded. lia. Qed.

Lemma getCoefficient_sentinel_witness :
  getCoefficient [1; 2; 3; 4] 16000 48 4 48 = Ok (Fin 0.0)
  /\ getCoefficient [1; 2; 3; 4] 16000 48 4 (48 + 5) = Ok (Fin 0.0)
  /\ getCoefficient [] 16000 0 32 0 = Ok (Fin 0.0).
Proof.
  refine (conj _ (conj _ _)); apply getCoefficient_sentinel; lia.
Defined.

(** Frames that read alike at every bin give loops that end alike. *)
Lemma innerSumLoop_ext (sd1 sd2 : list R) (samplingRate binSize l : Z)
  (f : R -> R) :
  (forall x w, Py.fabs (Py.mul (Fin (f x)) w) = Py.fabs (Py.mul (Fin x) w)) ->
  (forall k, (0 <= k < binSize - 1)%Z ->
             Py.getitem sd2 k
             = (x <- Py.getitem sd1 k ;;
                match x with Fin v => Ok (Fin (f v)) | _ => Ok x end)) ->
  innerSumLoop sd2 samplingRate binSize l
  = innerSumLoop sd1 samplingRate binSize l.
Proof.
  intros Hf Hget. unfold innerSumLoop, Py.range. apply for_each_ext.
  intros k a Hk. unfold binStep. rewrite Hget by lia.
  unfold Py.getitem. cbv zeta.
  destruct ((0 <=? (if (k <? 0)%Z then (k + Z.of_nat (length sd1))%Z else k))
            && ((if (k <? 0)%Z then (k + Z.of_nat (length sd1))%Z else k)
                <? Z.of_nat (length sd1)))%Z; [| reflexivity].
  destruct (nth_error sd1 _) as [x |]; cbn [bind]; [| reflexivity].
  destruct (getFilterParameter samplingRate binSize k l) as [w | e];
    cbn [bind]; [| reflexivity].
  rewrite Hf. reflexivity.
Qed.

Lemma getCoefficient_ext (sd1 sd2 : list R)
  (samplingRate numFilters binSize m : Z) :
  (forall l, innerSumLoop sd2 samplingRate binSize l
             = innerSumLoop sd1 samplingRate binSize l) ->
  getCoefficient sd2 samplingRate numFilters binSize m
  = getCoefficient sd1 samplingRate numFilters binSize m.
Proof.
  intros H. unfold getCoefficient.
  destruct (m >=? numFilters)%Z; [reflexivity |].
  destruct (getNormalizationFactor numFilters m) as [norm | e]; cbn [bind];
    [| reflexivity].
  f_equal. unfold Py.range. apply for_each_ext.
  intros l acc _. unfold bandStep. rewrite H. reflexivity.
Qed.

(** Two frames of the same length that agree on the bins
    [0 .. binSize-2] are read alike by the loop over the bins. *)
Lemma getitem_agree (sd1 sd2 : list R) (binSize k : Z) :
  length sd1 = length sd2 ->
  (forall j, (0 <= j <= binSize - 2)%Z ->
             nth (Z.to_nat j) sd1 0 = nth (Z.to_nat j) sd2 0) ->
  (0 <= k < binSize - 1)%Z ->
  Py.getitem sd2 k
  = (x <- Py.getitem sd1 k ;;
     match x with Fin v => Ok (Fin v) | _ => Ok x end).
Proof.
  intros Hlen Hagree Hk.
  destruct (Z_lt_le_dec k (Z.of_nat (length sd1))) as [Hin | Hout].
  - rewrite !getitem_inside by lia. cbn [bind].
    rewrite Hagree by lia. reflexivity.
  - rewrite !getitem_outside by lia. reflexivity.
Qed.

(** C4, as the code has it.  In every band [1 <= l <= 10336], with
    [|samplingRate| < 2^1024 - 2^970], the loop over the bins leaves in
    [innerSum] the sum, for [k] from [0] to [binSize - 2], of
    [|spectralData[k] * getFilterParameter(samplingRate, binSize, k, l)|]
    (each of these calls returns); bin [binSize - 1] is not read, so two
    frames of length [binSize] that agree on the bins [0 .. binSize-2]
    give the same result, whatever the other arguments. *)
Theorem innerSum_skips_last_bin (samplingRate binSize : Z) (sd1 sd2 : list R) :
  length sd1 = Z.to_nat binSize -> length sd2 = Z.to_nat binSize ->
  (forall k, (0 <= k <= binSize - 2)%Z ->
             nth (Z.to_nat k) sd1 0 = nth (Z.to_nat k) sd2 0) ->
  ((Z.abs samplingRate < int_limit)%Z ->
   forall k l, (0 <= k <= binSize - 2)%Z -> (1 <= l <= 10336)%Z ->
     getFilterParameter samplingRate binSize k l
     = Ok (Fin (Spec.weight samplingRate binSize k l)))
  /\ ((Z.abs samplingRate < int_limit)%Z ->
      forall l, (1 <= l <= 10336)%Z ->
        innerSumLoop sd1 samplingRate binSize l
        = Ok (Fin (Sigma 0 (binSize - 2)
                     (fun k => Rabs (nth (Z.to_nat k) sd1 0
                                     * Spec.weight samplingRate binSize k l)))))
  /\ (forall numFilters m,
        getCoefficient sd1 samplingRate numFilters binSize m
        = getCoefficient sd2 samplingRate numFilters binSize m).
Proof.
  intros Hlen1 Hlen2 Hagree. pose proof int_limit_value as Hlim.
  refine (conj _ (conj _ _)).
  - intros Hs k l Hk Hl. rewrite weight_zero.
    apply filterParameter_zero; [lia | apply quotient_in_range; lia | lia].
  - intros Hs l Hl. rewrite innerSumLoop_zero by lia.
    do 2 f_equal. symmetry. apply innerSum_zero.
  - intros numFilters m. symmetry. apply getCoefficient_ext. intros l.
    apply (innerSumLoop_ext _ _ _ _ _ (fun x => x)); [reflexivity |].
    intros k Hk. apply (getitem_agree sd1 sd2 binSize); [lia | assumption | lia].
Qed.

Lemma innerSum_skips_last_bin_witness :
  (forall k l, (0 <= k <= 4 - 2)%Z -> (1 <= l <= 10336)%Z ->
      getFilterParameter 16000 4 k l = Ok (Fin (Spec.weight 16000 4 k l)))
  /\ (forall l, (1 <= l <= 10336)%Z ->
      innerSumLoop [3; 1; 4; 1] 16000 4 l
      = Ok (Fin (Sigma 0 (4 - 2)
                   (fun k => Rabs (nth (Z.to_nat k) [3; 1; 4; 1] 0
                                   * Spec.weight 16000 4 k l)))))
  /\ (forall numFilters m,
        getCoefficient [3; 1; 4; 1] 16000 numFilters 4 m
        = getCoefficient [3; 1; 4; 9] 16000 numFilters 4 m).
Proof.
  assert (forall k, (0 <= k <= 4 - 2)%Z ->
            nth (Z.to_nat k) [3; 1; 4; 1] 0 = nth (Z.to_nat k) [3; 1; 4; 9] 0)
    as Hagree.
  { intros k Hk.
    assert (k = 0 \/ k = 1 \/ k = 2)%Z as [-> | [-> | ->]] by lia; reflexivity. }
  assert (Z.abs 16000 < int_limit)%Z as Hs by reflexivity.
  pose proof (innerSum_skips_last_bin 16000 4 [3; 1; 4; 1] [3; 1; 4; 9]
                eq_refl eq_refl Hagree) as [H1 [H2 H3]].
  exact (conj (H1 Hs) (conj (H2 Hs) H3)).
Defined.

(** C4, as it was stated for every filter band, fails in band [10337]
    and beyond: the loop over the bins raises at its first bin. *)
Lemma innerSum_skips_last_bin_counterexample :
  innerSumLoop [1; 1] 16000 2 10337 = Raise OverflowError
  /\ getFilterParameter 16000 32 1 20000 = Raise OverflowError.
Proof.
  split.
  - apply innerSumLoop_overflow; [lia | cbn; lia | lia].
  - apply filterParameter_band_overflow; [lia | reflexivity | lia].
Qed.

(** C1, as the code has it.  For [0 <= m < numFilters],
    [numFilters <= 10336], [|samplingRate| < 2^1024 - 2^970],
    [binSize >= 1] and a frame of length [binSize], [getCoefficient]
    raises nothing and returns [normalization * outerSum], with
    [normalization] the factor of step 1 and [outerSum] the sum for [l]
    from [1] to [numFilters] of
    [L_l * cos((m * pi / numFilters) * (l - 0.5))], where [L_l] is
    [ln(innerSum_l)] when [innerSum_l > 0] and [0] when
    [innerSum_l <= 0]. *)
Theorem getCoefficient_formula (spectralData : list R)
  (samplingRate numFilters binSize m : Z) :
  (0 <= m < numFilters)%Z -> (numFilters <= 10336)%Z ->
  (Z.abs samplingRate < int_limit)%Z -> (1 <= binSize)%Z ->
  length spectralData = Z.to_nat binSize ->
  let innerSum := Spec.innerSum spectralData samplingRate binSize in
  exists L : Z -> R,
    (forall l, innerSum l > 0 -> L l = ln (innerSum l))
    /\ (forall l, innerSum l <= 0 -> L l = 0.0)
    /\ getCoefficient spectralData samplingRate numFilters binSize m
       = Ok (Fin (Spec.normalization numFilters m
                  * Sigma 1 numFilters
                      (fun l => L l * cos ((IZR m * PI / IZR numFilters)
                                           * (IZR l - 0.5))))).
Proof.
  intros Hm Hnf Hs Hbin Hlen innerSum.
  exists (fun l => Spec.clampedLog (innerSum l)).
  refine (conj _ (conj _ _)).
  - intros l Hl. apply clampedLog_positive. lra.
  - intros l Hl. rewrite clampedLog_nonpositive by assumption. lra.
  - rewrite getCoefficient_zero by lia.
    pose proof (outerSum_zero spectralData samplingRate numFilters binSize m)
      as Hout.
    unfold Spec.outerSum in Hout. subst innerSum. rewrite Hout.
    do 2 f_equal. lra.
Qed.

Lemma getCoefficient_formula_witness :
  exists L : Z -> R,
    (forall l, Spec.innerSum [1; 1; 1; 1] 16000 4 l > 0 ->
               L l = ln (Spec.innerSum [1; 1; 1; 1] 16000 4 l))
    /\ (forall l, Spec.innerSum [1; 1; 1; 1] 16000 4 l <= 0 -> L l = 0.0)
    /\ getCoefficient [1; 1; 1; 1] 16000 48 4 2
       = Ok (Fin (Spec.normalization 48 2
                  * Sigma 1 48
                      (fun l => L l * cos ((IZR 2 * PI / IZR 48)
                                           * (IZR l - 0.5))))).
Proof.
  apply (getCoefficient_formula [1; 1; 1; 1] 16000 48 4 2);
    [lia | lia | reflexivity | lia | reflexivity].
Defined.

(** C1, as it was stated, fails on inputs that meet its conditions: with
    [10337] bands, and with a sampling rate whose bin frequencies are not
    floats. *)
Lemma getCoefficient_formula_counterexample :
  getCoefficient [1; 1] 16000 10337 2 0 = Raise OverflowError
  /\ getCoefficient [1; 1; 1] (2 ^ 1026) 48 3 0 = Raise OverflowError.
Proof.
  pose proof int_limit_value as Hlim. split.
  - apply getCoefficient_overflow;
      [lia
      | lia | lia | reflexivity | lia | cbn; lia].
  - apply getCoefficient_rate_overflow;
      [lia | lia | lia | cbn; lia | unfold int_limit; lia].
Qed.

(** C9, as the code has it.  For a frame of length [binSize] that is
    [0.0] at every bin, with [1 <= numFilters <= 10336],
    [|samplingRate| < 2^1024 - 2^970] and [binSize >= 1]: in every band
    [innerSum] ends at [0], the test [innerSum > 0] fails and the
    logarithm is not taken, the band adds [0] to [outerSum], and
    [getCoefficient] returns [0.0] for every [m >= -2^1021]. *)
Theorem getCoefficient_zero_energy (spectralData : list R)
  (samplingRate numFilters binSize : Z) :
  Forall (fun x => x = 0.0) spectralData ->
  length spectralData = Z.to_nat binSize ->
  (1 <= numFilters <= 10336)%Z -> (Z.abs samplingRate < int_limit)%Z ->
  (1 <= binSize)%Z ->
  (forall l, (1 <= l <= 10336)%Z ->
     innerSumLoop spectralData samplingRate binSize l = Ok (Fin 0.0))
  /\ Py.gtb (Fin 0.0) (Fin 0) = false
  /\ (forall m l outerSum,
        (- 2 ^ 1021 <= m <= 2 ^ 1021)%Z -> (1 <= l <= numFilters)%Z ->
        bandStep spectralData samplingRate numFilters binSize m l outerSum
        = Ok (Py.add outerSum (Fin 0.0)))
  /\ (forall m, (- 2 ^ 1021 <= m)%Z ->
        getCoefficient spectralData samplingRate numFilters binSize m
        = Ok (Fin 0.0)).
Proof.
  intros _ Hlen Hnf Hs Hbin. pose proof int_limit_value as Hlim.
  rewrite zero_literal.
  refine (conj _ (conj _ (conj _ _))).
  - intros l Hl. apply innerSumLoop_zero; lia.
  - cbn [Py.gtb Py.ltb]. destruct (Rlt_dec 0 0); [lra | reflexivity].
  - intros m l outerSum Hm Hl. apply bandStep_zero; lia.
  - intros m Hm. destruct (Z_lt_le_dec m numFilters) as [Hlt | Hge].
    + apply getCoefficient_zero; lia.
    + rewrite <- zero_literal. apply getCoefficient_guarded. lia.
Qed.

Lemma getCoefficient_zero_energy_witness :
  getCoefficient [0.0; 0.0; 0.0; 0.0] 16000 48 4 0 = Ok (Fin 0.0)
  /\ getCoefficient [0.0; 0.0; 0.0; 0.0] 16000 48 4 7 = Ok (Fin 0.0)
  /\ getCoefficient [0.0; 0.0; 0.0; 0.0] 16000 48 4 48 = Ok (Fin 0.0).
Proof.
  pose proof (getCoefficient_zero_energy [0.0; 0.0; 0.0; 0.0] 16000 48 4
                ltac:(repeat constructor) eq_refl ltac:(lia) eq_refl
                ltac:(lia)) as [_ [_ [_ H]]].
  refine (conj _ (conj _ _)); apply H; lia.
Defined.

(** C9, as it was stated, fails on frames of zeros: with [10400] bands,
    and at an index [m] too large to be made a float. *)
Lemma getCoefficient_zero_energy_counterexample :
  getCoefficient [0.0; 0.0] 16000 10400 2 0 = Raise OverflowError
  /\ getCoefficient [0.0; 0.0] 16000 48 2 (- 2 ^ 1024) = Raise OverflowError.
Proof.
  pose proof int_limit_value as Hlim. split.
  - apply getCoefficient_overflow;
      [lia
      | lia | lia | reflexivity | lia | cbn; lia].
  - apply getCoefficient_index_overflow;
      [unfold int_limit; lia | lia | reflexivity | cbn; lia].
Qed.

(** C10, as the code has it.  The guard of [getCoefficient] tests
    [m >= numFilters] only.  For [-2^1021 <= m < 0] and
    [1 <= numFilters <= 10336] it does not return there: the
    normalization factor is [sqrt(2/numFilters)], the loops over the bands
    and the bins run, and the result is the product of the two; a frame
    too short for the loop over the bins raises [IndexError], which the
    guard's return cannot. *)
Theorem getCoefficient_negative_index (spectralData : list R)
  (samplingRate numFilters binSize m : Z) :
  (- 2 ^ 1021 <= m < 0)%Z -> (1 <= numFilters <= 10336)%Z ->
  getNormalizationFactor numFilters m
  = Ok (Fin (sqrt (2 / IZR numFilters)))
  /\ getCoefficient spectralData samplingRate numFilters binSize m
     = (outerSum <- Py.for_each (Py.range 1 (numFilters + 1))
                      (bandStep spectralData samplingRate numFilters binSize m)
                      (Fin 0.0) ;;
        Ok (Py.mul (Fin (sqrt (2 / IZR numFilters))) outerSum))
  /\ ((Z.abs samplingRate < int_limit)%Z ->
      length spectralData = Z.to_nat binSize ->
      getCoefficient spectralData samplingRate numFilters binSize m
      = Ok (Fin (sqrt (2 / IZR numFilters)
                 * Spec.outerSum spectralData samplingRate numFilters
                     binSize m)))
  /\ ((Z.abs samplingRate < int_limit)%Z ->
      spectralData = [] -> (2 <= binSize)%Z ->
      getCoefficient spectralData samplingRate numFilters binSize m
      = Raise IndexError).
Proof.
  intros Hm Hnf. pose proof int_limit_value as Hlim.
  assert (getNormalizationFactor numFilters m
          = Ok (Fin (sqrt (2 / IZR numFilters)))) as Hnorm.
  { rewrite normalization_ok by lia. unfold Spec.normalization.
    replace (m =? 0)%Z with false by (symmetry; apply Z.eqb_neq; lia).
    reflexivity. }
  assert (getCoefficient spectralData samplingRate numFilters binSize m
          = (outerSum <- Py.for_each (Py.range 1 (numFilters + 1))
                           (bandStep spectralData samplingRate numFilters binSize m)
                           (Fin 0.0) ;;
             Ok (Py.mul (Fin (sqrt (2 / IZR numFilters))) outerSum))) as Hrun.
  { unfold getCoefficient. rewrite guard_false by lia.
    rewrite Hnorm. reflexivity. }
  refine (conj Hnorm (conj Hrun (conj _ _))).
  - intros Hs Hlen. rewrite getCoefficient_zero by lia.
    rewrite outerSum_zero. do 2 f_equal. lra.
  - intros Hs -> Hbin. apply getCoefficient_short; cbn [length]; lia.
Qed.

Lemma getCoefficient_negative_index_witness :
  getNormalizationFactor 48 (-1) = Ok (Fin (sqrt (2 / 48)))
  /\ getCoefficient [] 16000 48 32 (-1) = Raise IndexError.
Proof.
  pose proof (getCoefficient_negative_index [] 16000 48 32 (-1)
                ltac:(lia) ltac:(lia))
    as [H1 [_ [_ H4]]].
  exact (conj H1 (H4 eq_refl eq_refl ltac:(lia))).
Defined.

(** C10, as it was stated for every negative [m] and every
    [numFilters >= 1], fails with [10337] bands and at an index too large
    to be made a float: the summation stops with [OverflowError]. *)
Lemma getCoefficient_negative_index_counterexample :
  getCoefficient [1; 1] 16000 10337 2 (-1) = Raise OverflowError
  /\ getCoefficient [1; 1] 16000 48 2 (- 2 ^ 1024) = Raise OverflowError.
Proof.
  pose proof int_limit_value as Hlim. split.
  - apply getCoefficient_overflow;
      [lia
      | lia | lia | reflexivity | lia | cbn; lia].
  - apply getCoefficient_index_overflow;
      [unfold int_limit; lia | lia | reflexivity | cbn; lia].
Qed.

(** * Further properties of the five methods *)

(** ** [getCenterFrequency] *)

(** Strictly increasing on the bands [0 .. 10236], where the centre is
    a finite float: two different bands never share a centre there. *)
Theorem centerFrequency_strictly_increasing (l1 l2 : Z) :
  (0 <= l1)%Z -> (l1 < l2)%Z -> (l2 <= 10236)%Z ->
  exists f1 f2 : R,
    getCenterFrequency l1 = Ok (Fin f1)
    /\ getCenterFrequency l2 = Ok (Fin f2)
    /\ f1 < f2.
Proof.
  intros H0 Hlt Hmax.
  exists (Spec.centerFrequency l1), (Spec.centerFrequency l2).
  refine (conj _ (conj _ _)).
  - apply centerFrequency_finite; lia.
  - apply centerFrequency_finite; lia.
  - apply spec_increasing. lia.
Qed.

Lemma centerFrequency_strictly_increasing_witness :
  exists f1 f2 : R,
    getCenterFrequency 62 = Ok (Fin f1)
    /\ getCenterFrequency 1000 = Ok (Fin f2)
    /\ f1 < f2.
Proof. apply (centerFrequency_strictly_increasing 62 1000); lia. Defined.

(** Wherever [getCenterFrequency] returns, the centre is not negative;
    it is [0.0] at the origin and, by underflow, from band [-10825]
    down, and at no other index. *)
Theorem centerFrequency_zero_iff (l : Z) :
  (- int_limit < l <= 10337)%Z ->
  exists f : float,
    getCenterFrequency l = Ok f
    /\ Py.geb f (Fin 0) = true
    /\ (f = Fin 0 <-> (l = 0 \/ l <= -10825)%Z).
Proof.
  intros H.
  destruct (Z_le_gt_dec l (-10825)) as [Hu | Hu];
    [| destruct (Z_le_gt_dec l 10236) as [Hf | Hf]].
  - exists (Fin 0). rewrite centerFrequency_underflow by lia.
    refine (conj eq_refl (conj _ _)).
    + apply geb_Fin; lra.
    + split; [right; assumption | reflexivity].
  - exists (Fin (Spec.centerFrequency l)).
    rewrite centerFrequency_finite by lia.
    refine (conj eq_refl (conj _ _)).
    + apply geb_Fin, spec_nonneg.
    + split.
      * intros E. injection E as E. left.
        destruct (Z.eq_dec l 0) as [E0 | Hne]; [exact E0 | exfalso].
        pose proof (spec_pos l Hne). lra.
      * intros [-> | Hneg]; [reflexivity | lia].
  - exists PInf. rewrite centerFrequency_infinite by lia.
    refine (conj eq_refl (conj eq_refl _)).
    split; [discriminate | lia].
Qed.

Lemma centerFrequency_zero_iff_witness :
  exists f : float,
    getCenterFrequency (-20000) = Ok f
    /\ Py.geb f (Fin 0) = true
    /\ (f = Fin 0 <-> (-20000 = 0 \/ -20000 <= -10825)%Z).
Proof.
  apply (centerFrequency_zero_iff (-20000)). unfold int_limit. lia.
Defined.

(** ** [getMagnitudeFactor] *)

(** [getMagnitudeFactor] raises for no band; the factor lies between [0]
    and [0.015], and it is positive exactly on the bands [1 .. 48]. *)
Theorem magnitudeFactor_range (l : Z) :
  exists v : R,
    getMagnitudeFactor l = Ok (Fin v)
    /\ 0 <= v <= 0.015
    /\ (0 < v <-> (1 <= l <= 48)%Z).
Proof.
  destruct (Z_lt_le_dec l 1) as [Hlo | Hlo];
    [| destruct (Z_le_gt_dec l 14) as [Hlin | Hlin];
       [| destruct (Z_le_gt_dec l 48) as [Hexp | Hexp]]].
  - exists 0. rewrite magnitudeFactor_outside by lia.
    repeat split; try lra; try lia.
  - exists 0.015. rewrite magnitudeFactor_linear by lia.
    repeat split; try lra; try lia.
  - exists (2.0 / (Spec.centerFrequency (l + 1) - Spec.centerFrequency (l - 1))).
    rewrite magnitudeFactor_bandwidth by lia.
    pose proof (bandwidth_lower_bound l ltac:(lia)) as Hbw.
    set (d := Spec.centerFrequency (l + 1) - Spec.centerFrequency (l - 1)) in *.
    assert (0 < / d) as Hinv by (apply Rinv_0_lt_compat; lra).
    assert (d * / d = 1) as Hone by (apply Rinv_r; lra).
    unfold Rdiv. repeat split; try nra; try lia.
  - exists 0. rewrite magnitudeFactor_outside by lia.
    repeat split; try lra; try lia.
Qed.

(** ** [getFilterParameter] *)

(** Every call to [getFilterParameter] raises [ZeroDivisionError] (when
    [binSize = 0]), raises [OverflowError] (when the frequency of the bin
    or a centre of the band is not a float) or returns [0.0]. *)
Lemma filterParameter_outcomes (samplingRate binSize k l : Z) :
  (binSize = 0%Z
   /\ getFilterParameter samplingRate binSize k l = Raise ZeroDivisionError)
  \/ (binSize <> 0%Z
      /\ ((int_limit * Z.abs binSize <= Z.abs (k * samplingRate))%Z
          \/ (l <= - int_limit)%Z \/ (10337 <= l)%Z)
      /\ getFilterParameter samplingRate binSize k l = Raise OverflowError)
  \/ (binSize <> 0%Z
      /\ (Z.abs (k * samplingRate) < int_limit * Z.abs binSize)%Z
      /\ (- int_limit < l <= 10336)%Z
      /\ getFilterParameter samplingRate binSize k l = Ok (Fin 0)).
Proof.
  destruct (Z.eq_dec binSize 0) as [-> | Hbin].
  { left. split; [reflexivity | apply filterParameter_zero_binSize]. }
  right.
  destruct (Z_lt_le_dec (Z.abs (k * samplingRate)) (int_limit * Z.abs binSize))
    as [Hq | Hq].
  - destruct (Z_lt_le_dec (- int_limit) l) as [Hlo | Hlo];
      [destruct (Z_le_gt_dec l 10336) as [Hhi | Hhi] |].
    + right. repeat split; try assumption; try lia.
      apply filterParameter_zero; assumption || lia.
    + left. repeat split; try assumption; [right; right; lia |].
      apply filterParameter_band_overflow; assumption || lia.
    + left. repeat split; try assumption; [right; left; lia |].
      apply filterParameter_band_overflow; assumption || lia.
  - left. repeat split; try assumption; [left; assumption |].
    apply filterParameter_quotient_overflow; assumption.
Qed.

(** [getFilterParameter] raises [ZeroDivisionError] exactly when
    [binSize = 0]; the only other exception is [OverflowError]: the
    divisions of the two ramps are never by zero. *)
Theorem filterParameter_raises_iff (samplingRate binSize k l : Z) :
  (getFilterParameter samplingRate binSize k l = Raise ZeroDivisionError
   <-> binSize = 0%Z)
  /\ (forall e, getFilterParameter samplingRate binSize k l = Raise e ->
                e = ZeroDivisionError \/ e = OverflowError).
Proof.
  destruct (filterParameter_outcomes samplingRate binSize k l)
    as [[Hb E] | [[Hb [_ E]] | [Hb [_ [_ E]]]]]; rewrite E; split;
    try (split; intros; congruence);
    intros e He; injection He as <- || discriminate He; auto.
Qed.

(** Whatever the sampling rate, the bin and the band, negative ones
    included, the weight is [0.0] as soon as the frequency of the bin
    and the centres of the band are floats: the first test covers the
    falling edge, the second branch is reached for band [-1] alone,
    whose magnitude factor is [0], the third never.  Outside these
    bounds, with [binSize] not [0], the call raises [OverflowError]. *)
Theorem filterParameter_always_zero (samplingRate binSize k l : Z) :
  binSize <> 0%Z ->
  ((Z.abs (k * samplingRate) < int_limit * Z.abs binSize)%Z ->
   (- int_limit < l <= 10336)%Z ->
   getFilterParameter samplingRate binSize k l = Ok (Fin 0.0))
  /\ ((int_limit * Z.abs binSize <= Z.abs (k * samplingRate))%Z
      \/ (l <= - int_limit)%Z \/ (10337 <= l)%Z ->
      getFilterParameter samplingRate binSize k l = Raise OverflowError).
Proof.
  intros Hbin. rewrite zero_literal.
  destruct (filterParameter_outcomes samplingRate binSize k l)
    as [[Hb E] | [[Hb [Hout E]] | [Hb [Hq [Hl E]]]]]; [contradiction | |];
    rewrite E; split; intros; try reflexivity; lia.
Qed.

Lemma filterParameter_always_zero_witness :
  getFilterParameter 44100 1024 20 5 = Ok (Fin 0.0)
  /\ getFilterParameter 44100 1024 3 (-1) = Ok (Fin 0.0)
  /\ getFilterParameter 44100 1024 3 10337 = Raise OverflowError.
Proof.
  refine (conj _ (conj _ _)).
  - apply (proj1 (filterParameter_always_zero 44100 1024 20 5 ltac:(lia)));
      unfold int_limit; lia.
  - apply (proj1 (filterParameter_always_zero 44100 1024 3 (-1) ltac:(lia)));
      unfold int_limit; lia.
  - apply (proj2 (filterParameter_always_zero 44100 1024 3 10337 ltac:(lia)));
      lia.
Defined.

(** ** [getNormalizationFactor] *)

(** How [getNormalizationFactor] fails, for every [m]: [numFilters = 0]
    divides by zero, a negative [numFilters] takes the square root of a
    negative number, and a [numFilters] of magnitude [2^1024 - 2^970] or
    more is too large an int to be made a float. *)
Theorem normalizationFactor_errors (numFilters m : Z) :
  (numFilters = 0%Z ->
   getNormalizationFactor numFilters m = Raise ZeroDivisionError)
  /\ ((- int_limit < numFilters < 0)%Z ->
      getNormalizationFactor numFilters m = Raise ValueError)
  /\ ((int_limit <= Z.abs numFilters)%Z ->
      getNormalizationFactor numFilters m = Raise OverflowError).
Proof. exact (normalization_errors numFilters m). Qed.

Lemma normalizationFactor_errors_witness :
  getNormalizationFactor 0 3 = Raise ZeroDivisionError
  /\ getNormalizationFactor (-48) 0 = Raise ValueError
  /\ getNormalizationFactor (- 2 ^ 1024) 0 = Raise OverflowError.
Proof.
  refine (conj _ (conj _ _)).
  - apply (proj1 (normalizationFactor_errors 0 3)); reflexivity.
  - apply (proj1 (proj2 (normalizationFactor_errors (-48) 0)));
      unfold int_limit; lia.
  - apply (proj2 (proj2 (normalizationFactor_errors (- 2 ^ 1024) 0)));
      unfold int_limit; lia.
Defined.

(** ** [getCoefficient]: exceptions *)

(** Below the guard a [numFilters] that is not positive is an error, met
    before any bin is read: [ZeroDivisionError] for [numFilters = 0]
    (then [m < 0]), [ValueError] for a negative [numFilters] that can be
    made a float, [OverflowError] for one that cannot. *)
Theorem getCoefficient_invalid_numFilters (spectralData : list R)
  (samplingRate numFilters binSize m : Z) :
  (m < numFilters)%Z ->
  (numFilters = 0%Z ->
   getCoefficient spectralData samplingRate numFilters binSize m
   = Raise ZeroDivisionError)
  /\ ((- int_limit < numFilters < 0)%Z ->
      getCoefficient spectralData samplingRate numFilters binSize m
      = Raise ValueError)
  /\ ((numFilters <= - int_limit)%Z ->
      getCoefficient spectralData samplingRate numFilters binSize m
      = Raise OverflowError).
Proof.
  intros Hm. pose proof int_limit_value as Hlim.
  pose proof (normalization_errors numFilters m) as [Hz [Hneg Hbig]].
  refine (conj _ (conj _ _)); intros H; unfold getCoefficient;
    rewrite guard_false by lia;
    [rewrite Hz by assumption | rewrite Hneg by assumption
    | rewrite Hbig by lia]; reflexivity.
Qed.

Lemma getCoefficient_invalid_numFilters_witness :
  getCoefficient [1; 2; 3] 16000 0 3 (-1) = Raise ZeroDivisionError
  /\ getCoefficient [1; 2; 3] 16000 (-4) 3 (-7) = Raise ValueError.
Proof.
  split.
  - apply (proj1 (getCoefficient_invalid_numFilters [1; 2; 3] 16000 0 3 (-1)
                    ltac:(lia))); reflexivity.
  - apply (proj1 (proj2 (getCoefficient_invalid_numFilters [1; 2; 3] 16000
                           (-4) 3 (-7) ltac:(lia)))); unfold int_limit; lia.
Defined.

(** Inside the range of the floats ([-2^1021 <= m < numFilters],
    [1 <= numFilters <= 10336], [|samplingRate| < 2^1024 - 2^970]),
    [getCoefficient] raises exactly when the frame has fewer than
    [binSize - 1] values, and then [IndexError]; otherwise it returns:
    [math.log] is never called outside its domain and no division is by
    zero. *)
Theorem getCoefficient_raises_iff (spectralData : list R)
  (samplingRate numFilters binSize m : Z) :
  (- 2 ^ 1021 <= m < numFilters)%Z -> (1 <= numFilters <= 10336)%Z ->
  (Z.abs samplingRate < int_limit)%Z ->
  ((Z.of_nat (length spectralData) < binSize - 1)%Z ->
   getCoefficient spectralData samplingRate numFilters binSize m
   = Raise IndexError)
  /\ ((binSize - 1 <= Z.of_nat (length spectralData))%Z ->
      exists v, getCoefficient spectralData samplingRate numFilters binSize m
                = Ok v).
Proof.
  intros Hm Hnf Hs. pose proof int_limit_value as Hlim. split; intros Hlen.
  - apply getCoefficient_short; assumption || lia.
  - eexists. apply getCoefficient_zero; assumption.
Qed.

Lemma getCoefficient_raises_iff_witness :
  getCoefficient [1; 2] 16000 48 4 0 = Raise IndexError
  /\ exists v, getCoefficient [1; 2; 3] 16000 48 4 0 = Ok v.
Proof.
  split.
  - apply (proj1 (getCoefficient_raises_iff [1; 2] 16000 48 4 0
                    ltac:(lia) ltac:(lia) eq_refl)); cbn; lia.
  - apply (proj2 (getCoefficient_raises_iff [1; 2; 3] 16000 48 4 0
                    ltac:(lia) ltac:(lia) eq_refl)); cbn; lia.
Defined.

(** With [binSize >= 2] the number of bands is limited by the range of
    the floats: from [numFilters = 10337] on, [getCoefficient] raises
    [OverflowError], in band [10337] or, when [numFilters] itself cannot
    be made a float, in the normalization factor. *)
Theorem getCoefficient_band_limit (spectralData : list R)
  (samplingRate numFilters binSize m : Z) :
  (- 2 ^ 1021 <= m <= 2 ^ 1021)%Z -> (m < numFilters)%Z ->
  (10337 <= numFilters)%Z -> (Z.abs samplingRate < int_limit)%Z ->
  (2 <= binSize)%Z -> (binSize - 1 <= Z.of_nat (length spectralData))%Z ->
  getCoefficient spectralData samplingRate numFilters binSize m
  = Raise OverflowError.
Proof.
  intros Hm Hlt Hnf Hs Hbin Hlen.
  destruct (Z_lt_le_dec numFilters int_limit) as [Hin | Hout].
  - apply getCoefficient_overflow; assumption || lia.
  - unfold getCoefficient. rewrite guard_false by lia.
    destruct (normalization_errors numFilters m) as [_ [_ Hbig]].
    rewrite Hbig by lia. reflexivity.
Qed.

Lemma getCoefficient_band_limit_witness :
  getCoefficient [1; 1; 1] 44100 20000 4 3 = Raise OverflowError.
Proof.
  apply getCoefficient_band_limit;
    [lia | lia | lia | reflexivity | lia | cbn; lia].
Defined.

(** ** [getCoefficient]: what the result depends on *)

Lemma getitem_firstn (a : list R) (n : nat) (k : Z) :
  (0 <= k < Z.of_nat n)%Z -> Py.getitem (firstn n a) k = Py.getitem a k.
Proof.
  intros Hk. destruct (Z_lt_le_dec k (Z.of_nat (length a))) as [Hin | Hout].
  - rewrite !getitem_inside by (rewrite ?length_firstn; lia).
    rewrite nth_firstn.
    replace (Z.to_nat k <? n)%nat with true
      by (symmetry; apply Nat.ltb_lt; lia).
    reflexivity.
  - rewrite !getitem_outside by (rewrite ?length_firstn; lia). reflexivity.
Qed.

Lemma getitem_map_opp (a : list R) (k : Z) :
  (0 <= k)%Z ->
  Py.getitem (map Ropp a) k
  = (x <- Py.getitem a k ;;
     match x with Fin v => Ok (Fin (- v)) | _ => Ok x end).
Proof.
  intros Hk. destruct (Z_lt_le_dec k (Z.of_nat (length a))) as [Hin | Hout].
  - rewrite !getitem_inside by (rewrite ?length_map; lia). cbn [bind].
    rewrite <- Ropp_0 at 1. rewrite map_nth. reflexivity.
  - rewrite !getitem_outside by (rewrite ?length_map; lia). reflexivity.
Qed.

Lemma inf_times_opp (x : R) (positive : bool) :
  Py.inf_times (- x) positive = Py.neg (Py.inf_times x positive).
Proof.
  unfold Py.inf_times.
  destruct (Req_dec_T (- x) 0), (Req_dec_T x 0); try lra; [reflexivity |].
  destruct (Rlt_dec 0 (- x)), (Rlt_dec 0 x); try lra;
    destruct positive; reflexivity.
Qed.

Lemma inf_times_flip (x : R) (positive : bool) :
  Py.inf_times x (negb positive) = Py.neg (Py.inf_times x positive).
Proof.
  unfold Py.inf_times. destruct (Req_dec_T x 0); [reflexivity |].
  destruct (Rlt_dec 0 x); destruct positive; reflexivity.
Qed.

Lemma mul_neg_l (a b : float) : Py.mul (Py.neg a) b = Py.neg (Py.mul a b).
Proof.
  destruct a as [x | | |], b as [y | | |]; cbn [Py.neg Py.mul];
    try reflexivity;
    try apply inf_times_opp;
    try apply (inf_times_flip _ true);
    try apply (inf_times_flip _ false).
  replace (- x * y) with (- (x * y)) by ring. apply round_opp.
Qed.

Lemma fabs_neg (a : float) : Py.fabs (Py.neg a) = Py.fabs a.
Proof.
  destruct a as [x | | |]; cbn [Py.neg Py.fabs]; try reflexivity.
  rewrite Rabs_Ropp. reflexivity.
Qed.

Lemma cos_neg_float (a : float) : Py.cos (Py.neg a) = Py.cos a.
Proof.
  destruct a as [x | | |]; cbn [Py.neg Py.cos]; try reflexivity.
  rewrite cos_neg. reflexivity.
Qed.

Lemma truediv_neg_l (a b : float) :
  Py.truediv (Py.neg a) b = (q <- Py.truediv a b ;; Ok (Py.neg q)).
Proof.
  destruct b as [y | | |]; cbn [Py.truediv].
  - destruct (Req_dec_T y 0); [reflexivity |]. cbn [bind]. f_equal.
    destruct a as [x | | |]; cbn [Py.neg]; try reflexivity.
    + replace (- x / y) with (- (x / y)) by (unfold Rdiv; ring).
      apply round_opp.
    + apply (inf_times_flip _ true).
    + apply (inf_times_flip _ false).
  - destruct a as [x | | |]; cbn [Py.neg bind]; try reflexivity.
    do 2 f_equal. lra.
  - destruct a as [x | | |]; cbn [Py.neg bind]; try reflexivity.
    do 2 f_equal. lra.
  - reflexivity.
Qed.

Lemma of_int_opp (n : Z) :
  Py.of_int (- n) = (f <- Py.of_int n ;; Ok (Py.neg f)).
Proof.
  unfold Py.of_int. rewrite Z.abs_opp.
  destruct (int_limit <=? Z.abs n)%Z; [reflexivity |].
  cbn [bind Py.neg]. rewrite opp_IZR. reflexivity.
Qed.

(** Only the first [binSize - 1] values of the frame are read: cutting
    the frame there changes neither the value returned nor the exception
    raised, whatever the frame's length. *)
Theorem getCoefficient_reads_prefix (spectralData : list R)
  (samplingRate numFilters binSize m : Z) :
  getCoefficient (firstn (Z.to_nat (binSize - 1)) spectralData)
    samplingRate numFilters binSize m
  = getCoefficient spectralData samplingRate numFilters binSize m.
Proof.
  apply getCoefficient_ext. intros l.
  apply (innerSumLoop_ext _ _ _ _ _ (fun x => x)); [reflexivity |].
  intros k Hk. rewrite getitem_firstn by lia.
  destruct (Py.getitem spectralData k) as [[x | | |] | e]; reflexivity.
Qed.

(** The spectral values enter through [math.fabs] of a product: changing
    the sign of every value of the frame changes nothing. *)
Theorem getCoefficient_sign_insensitive (spectralData : list R)
  (samplingRate numFilters binSize m : Z) :
  getCoefficient (map Ropp spectralData) samplingRate numFilters binSize m
  = getCoefficient spectralData samplingRate numFilters binSize m.
Proof.
  apply getCoefficient_ext. intros l.
  apply (innerSumLoop_ext _ _ _ _ _ Ropp).
  - intros x w. change (Fin (- x)) with (Py.neg (Fin x)).
    rewrite mul_neg_l. apply fabs_neg.
  - intros k Hk. apply getitem_map_opp. lia.
Qed.

(** The guard lets a negative index through, and the cosine is even: for
    [0 < m < numFilters] the call at [-m] does what the call at [m] does. *)
Theorem getCoefficient_even_in_m (spectralData : list R)
  (samplingRate numFilters binSize m : Z) :
  (0 < m < numFilters)%Z ->
  getCoefficient spectralData samplingRate numFilters binSize (- m)
  = getCoefficient spectralData samplingRate numFilters binSize m.
Proof.
  intros Hm. unfold getCoefficient.
  rewrite !guard_false by lia.
  assert (getNormalizationFactor numFilters (- m)
          = getNormalizationFactor numFilters m) as ->.
  { unfold getNormalizationFactor.
    replace (- m =? 0)%Z with false by (symmetry; apply Z.eqb_neq; lia).
    replace (m =? 0)%Z with false by (symmetry; apply Z.eqb_neq; lia).
    reflexivity. }
  destruct (getNormalizationFactor numFilters m) as [norm | e]; cbn [bind];
    [| reflexivity].
  f_equal. unfold Py.range. apply for_each_ext.
  intros l acc _. unfold bandStep.
  destruct (innerSumLoop spectralData samplingRate binSize l) as [s | e];
    cbn [bind]; [| reflexivity].
  destruct (if Py.gtb s (Fin 0) then Py.log s else Ok s) as [s' | e];
    cbn [bind]; [| reflexivity].
  rewrite of_int_opp.
  destruct (Py.of_int m) as [fm | e]; cbn [bind]; [| reflexivity].
  destruct (Py.of_int numFilters) as [fn | e]; cbn [bind]; [| reflexivity].
  rewrite mul_neg_l, truediv_neg_l.
  destruct (Py.truediv (Py.mul fm (Fin PI)) fn) as [q | e]; cbn [bind];
    [| reflexivity].
  destruct (Py.of_int l) as [fl | e]; cbn [bind]; [| reflexivity].
  rewrite mul_neg_l, cos_neg_float. reflexivity.
Qed.

Lemma getCoefficient_even_in_m_witness :
  getCoefficient [1; 2; 3; 4] 16000 48 4 (- 5)
  = getCoefficient [1; 2; 3; 4] 16000 48 4 5.
Proof. apply (getCoefficient_even_in_m [1; 2; 3; 4] 16000 48 4 5); lia. Defined.

(** At [m = 0] the cosine is [1] in every band: inside the range of the
    floats the coefficient is [sqrt(1/numFilters)] times the sum of the
    clamped logarithms of the band energies. *)
Theorem getCoefficient_dc (spectralData : list R)
  (samplingRate numFilters binSize : Z) :
  (1 <= numFilters <= 10336)%Z -> (Z.abs samplingRate < int_limit)%Z ->
  (binSize - 1 <= Z.of_nat (length spectralData))%Z ->
  getCoefficient spectralData samplingRate numFilters binSize 0
  = Ok (Fin (sqrt (1 / IZR numFilters)
             * Sigma 1 numFilters
                 (fun l => Spec.clampedLog
                             (Spec.innerSum spectralData samplingRate
                                binSize l)))).
Proof.
  intros Hnf Hs Hlen. rewrite getCoefficient_zero by (assumption || lia).
  assert (Sigma 1 numFilters
            (fun l => Spec.clampedLog
                        (Spec.innerSum spectralData samplingRate binSize l))
          = 0) as ->.
  { apply sum_from_zero. intros l _.
    rewrite innerSum_zero. apply clampedLog_nonpositive. lra. }
  do 2 f_equal. lra.
Qed.

Lemma getCoefficient_dc_witness :
  getCoefficient [1; 1; 1; 1] 16000 48 4 0
  = Ok (Fin (sqrt (1 / 48)
             * Sigma 1 48
                 (fun l => Spec.clampedLog
                             (Spec.innerSum [1; 1; 1; 1] 16000 4 l)))).
Proof.
  apply (getCoefficient_dc [1; 1; 1; 1] 16000 48 4);
    [lia | reflexivity | cbn; lia].
Defined.

(** The filter bank being [0.0] everywhere, so is the result: inside the
    range of the floats ([-2^1021 <= m < numFilters],
    [1 <= numFilters <= 10336], [|samplingRate| < 2^1024 - 2^970]) and
    for a frame of at least [binSize - 1] finite values,
    [getCoefficient] returns [0.0] whatever those values are. *)
Theorem getCoefficient_always_zero (spectralData : list R)
  (samplingRate numFilters binSize m : Z) :
  (- 2 ^ 1021 <= m < numFilters)%Z -> (1 <= numFilters <= 10336)%Z ->
  (Z.abs samplingRate < int_limit)%Z ->
  (binSize - 1 <= Z.of_nat (length spectralData))%Z ->
  getCoefficient spectralData samplingRate numFilters binSize m
  = Ok (Fin 0.0).
Proof.
  intros Hm Hnf Hs Hlen. rewrite zero_literal.
  apply getCoefficient_zero; assumption.
Qed.

Lemma getCoefficient_always_zero_witness :
  getCoefficient [3; 1; 4; 1; 5; 9; 2; 6] 44100 48 8 12 = Ok (Fin 0.0)
  /\ getCoefficient [] 44100 48 1 0 = Ok (Fin 0.0).
Proof.
  split; apply getCoefficient_always_zero;
    try reflexivity; try lia; cbn; lia.
Defined.
